(** * AHP (Analytic Hierarchy Process): the numeric engine of [multicriterio.py]

    A shallow embedding of the class [AHP] of [src/multicriterio/multicriterio.py]:
    the three priority-vector methods ([aproximado], [geometrico], [autovalor]),
    the consistency computation ([consistencia]), the selection of the method
    ([local_priority_vector]), the recursive aggregation ([global_priority_vector])
    and the facade ([resultado]).

    Conventions of the embedding.
    - The engine is embedded twice as far as numbers go.  In the first
      embedding a float is an exact rational ([Q]): sums, products and
      quotients carry no representation error, and there is neither [nan] nor
      [inf] (a quotient by zero is [0] here, where numpy yields [nan] or [inf]
      with a warning); it is the arithmetic the program is written for, and it
      serves the statements about exceptions, shapes, control flow and the
      aggregation.  What the machine numbers change is told by the second
      embedding, [autovalor_dtype]: the power iteration over the operations of
      a numpy dtype, with the recursion limit of the interpreter, and with the
      [float64] ([F64]) and [int64] ([I64]) arrays as instances.
    - A two-dimensional [np.ndarray] is the list of its rows, all of one length.
    - A Python exception is a value of [excecao]; a method that can raise returns
      a sum, and a method that appends to [self.prioridades_globais] threads that
      list as a state.
    - The two numpy routines that leave the rationals, the float power [**] and
      [eigvals], are the operations of the class [Numpy].
    - [print] under [self.log] is left out: it changes neither a result nor the
      accumulator. *)

From Stdlib Require Import QArith Qround Qabs Lqa Lia ZArith List String.
From Stdlib Require PrimFloat Uint63.
From stdpp Require Import gmap strings list.

Open Scope Q_scope.

(** ** Exceptions and the two effect layers *)

Inductive excecao : Type :=
  | LinAlgError        (* numpy.linalg: the array is not square *)
  | KeyError           (* dict lookup of an absent key *)
  | IndexError         (* index out of range *)
  | TypeError
  | ValueError         (* np.array of rows of different lengths; shapes that do not broadcast *)
  | ZeroDivisionError  (* Python's [1 / 0] *)
  | AxisError          (* an axis the array does not have *)
  | RecursionError.    (* the interpreter's recursion limit *)

Module Py.

Definition bind {A B : Type} (c : excecao + A) (k : A -> excecao + B) : excecao + B :=
  match c with
  | inl e => inl e
  | inr a => k a
  end.

Fixpoint mapM {A B : Type} (f : A -> excecao + B) (l : list A) : excecao + list B :=
  match l with
  | [] => inr []
  | x :: xs => bind (f x) (fun y => bind (mapM f xs) (fun ys => inr (y :: ys)))
  end.

End Py.

Declare Scope py_scope.
Delimit Scope py_scope with py.
Notation "x <- c ;; k" := (Py.bind c (fun x => k))
  (at level 100, c at next level, right associativity) : py_scope.

(** ** Numbers: [round], and the numpy routines outside the rationals *)

Class Numpy : Type := {
  (* [x ** y] on floats *)
  float_pow : Q -> Q -> Q;
  (* [np.real(eigvals(m).max())] of a square array *)
  eigvals_max : list (list Q) -> Q
}.

Abbreviation vetor := (list Q).
Abbreviation matriz := (list (list Q)).

(** [np.rint]: the nearest integer, a tie going to the even one. *)
Definition rint (x : Q) : Z :=
  let f := Qfloor x in
  match Qcompare (x - inject_Z f) (1 # 2) with
  | Lt => f
  | Gt => (f + 1)%Z
  | Eq => if Z.even f then f else (f + 1)%Z
  end.

Definition pow10 (n : Z) : Q := inject_Z (10 ^ n).

(** [np.round(x, decimals)] in exact arithmetic: scale by a power of ten,
    [rint], scale back.  The result is kept in lowest terms, so that equal
    rounded values are equal terms.  A decimal tie of the exact value is
    seldom a tie of its float ([0.575] is a float just below it): the rounding
    of the floats themselves is [F64.round_]. *)
Definition round_ (x : Q) (decimals : Z) : Q :=
  if (0 <=? decimals)%Z
  then Qred (inject_Z (rint (x * pow10 decimals)) / pow10 decimals)
  else Qred (inject_Z (rint (x / pow10 (- decimals))) * pow10 (- decimals)).

Definition np_round (v : vetor) (decimals : Z) : vetor :=
  map (fun x => round_ x decimals) v.

(** ** Arrays *)

(* [np.sum] of a vector, and Python's [sum] *)
Definition soma (v : vetor) : Q := fold_right Qplus 0 v.

(* [np.prod] *)
Definition produto (v : vetor) : Q := fold_right Qmult 1 v.

Definition soma_vet (a b : vetor) : vetor := zip_with Qplus a b.

Definition escala (x : Q) (v : vetor) : vetor := map (Qmult x) v.

Definition zeros (n : nat) : vetor := repeat 0 n.

(* [m.shape[0]] and [m.shape[1]] of an array with at least one row *)
Definition shape0 (m : matriz) : nat := length m.
Definition shape1 (m : matriz) : nat :=
  match m with
  | [] => 0%nat
  | linha :: _ => length linha
  end.

Definition quadrada (m : matriz) : bool :=
  forallb (fun linha => Nat.eqb (length linha) (length m)) m.

(* [m.sum(axis=0)]: the sum of the rows *)
Fixpoint sum_axis0 (m : matriz) : vetor :=
  match m with
  | [] => []
  | [linha] => linha
  | linha :: resto => soma_vet linha (sum_axis0 resto)
  end.

(* [m.sum(axis=1)] *)
Definition sum_axis1 (m : matriz) : vetor := map soma m.

(* [np.divide(m, v)], [v] broadcast along the rows *)
Definition divide_linhas (m : matriz) (v : vetor) : matriz :=
  map (fun linha => zip_with Qdiv linha v) m.

(* [m.mean(axis=1)] *)
Definition mean_axis1 (m : matriz) : vetor :=
  map (fun linha => soma linha / inject_Z (Z.of_nat (length linha))) m.

(* one row of a product: the combination of the rows of [b] with the
   coefficients [a] *)
Fixpoint vec_mat (a : vetor) (b : matriz) (colunas : nat) : vetor :=
  match a, b with
  | x :: a', linha :: b' => soma_vet (escala x linha) (vec_mat a' b' colunas)
  | _, _ => zeros colunas
  end.

Definition matmul (a b : matriz) : matriz :=
  map (fun linha => vec_mat linha b (shape1 b)) a.

(* [numpy.linalg.matrix_power(m, 2)] *)
Definition matrix_power2 (m : matriz) : excecao + matriz :=
  if quadrada m then inr (matmul m m) else inl LinAlgError.

(* [np.subtract] of two vectors, a vector of one entry being broadcast *)
Definition np_subtract (a b : vetor) : excecao + vetor :=
  if Nat.eqb (length a) (length b) then inr (zip_with Qminus a b)
  else if Nat.eqb (length b) 1 then inr (map (fun x => x - hd 0 b) a)
  else if Nat.eqb (length a) 1 then inr (map (fun y => hd 0 a - y) b)
  else inl ValueError.

(* [np.any] *)
Definition np_any (v : vetor) : bool := existsb (fun x => negb (Qeq_bool x 0)) v.

(** ** The three priority-vector methods *)

Section Metodos.

Context `{Numpy}.

Open Scope py_scope.

Definition aproximado (matriz_ : matriz) (precisao : Z) : excecao + vetor :=
  let soma_colunas := sum_axis0 matriz_ in
  let matriz_norm := divide_linhas matriz_ soma_colunas in
  let media_linhas := mean_axis1 matriz_norm in
  inr (np_round media_linhas precisao).

(* [np.prod(linha) ** (1 / len(linha))]; [1 / 0] raises *)
Definition media_geometrica_linha (linha : vetor) : excecao + Q :=
  match length linha with
  | O => inl ZeroDivisionError
  | n => inr (float_pow (produto linha) (1 / inject_Z (Z.of_nat n)))
  end.

Definition geometrico (matriz_ : matriz) (precisao : Z) : excecao + vetor :=
  media_geometrica <- Py.mapM media_geometrica_linha matriz_ ;;
  match media_geometrica with
  | [] => inl TypeError   (* [[] / 0]: a list divided by an int *)
  | _ =>
      let media_geometrica_norm :=
        map (fun x => x / soma media_geometrica) media_geometrica in
      inr (np_round media_geometrica_norm precisao)
  end.

(* The recursion of [autovalor] in exact arithmetic; [chamadas] bounds the
   number of nested calls that remain, and [autovalor] starts it high enough
   for its budget: the interpreter does so for the budgets below its recursion
   limit, the default one among them.  [autovalor_dtype] below has the limit
   and the machine numbers. *)
Fixpoint autovalor_rec (chamadas : nat) (matriz_ : matriz) (precisao interacao : Z)
    (autovetor_anterior : option vetor) : excecao + vetor :=
  matriz_quadrada <- matrix_power2 matriz_ ;;
  let soma_linhas := sum_axis1 matriz_quadrada in
  let soma_coluna := soma soma_linhas in
  let autovetor_atual := map (fun x => x / soma_coluna) soma_linhas in
  let autovetor_anterior :=
    match autovetor_anterior with
    | None => zeros (shape0 matriz_)
    | Some v => v
    end in
  diferenca <- np_subtract autovetor_atual autovetor_anterior ;;
  let diferenca := np_round diferenca precisao in
  if negb (np_any diferenca) then inr (np_round autovetor_atual precisao)
  else
    let interacao := (interacao - 1)%Z in
    if (interacao >? 0)%Z
    then match chamadas with
         | O => inl RecursionError
         | S chamadas' =>
             autovalor_rec chamadas' matriz_quadrada precisao interacao
               (Some autovetor_atual)
         end
    else inr (np_round autovetor_atual precisao).

Definition autovalor (matriz_ : matriz) (precisao interacao : Z)
    (autovetor_anterior : option vetor) : excecao + vetor :=
  autovalor_rec (Z.to_nat interacao) matriz_ precisao interacao autovetor_anterior.

(* the default arguments: [interacao=100, autovetor_anterior=None] *)
Definition autovalor_padrao (matriz_ : matriz) (precisao : Z) : excecao + vetor :=
  autovalor matriz_ precisao 100 None.

End Metodos.

(** ** The power iteration on an array of any dtype

    [autovalor] reaches the numbers of its array through numpy only: the
    squaring, the two sums, the division, the subtraction, the rounding and the
    truth value.  [Dtype] lists these operations for arrays [M] whose entries
    have the type [E] and whose quotients are the floats [F] (an array of
    Python ints is an [int64] array, whose squares wrap around; an array of
    floats is a [float64] array, whose squares overflow to [inf]).
    [autovalor_dtype] is [autovalor] over these operations, and [limite] is
    the number of nested calls the interpreter still allows below the first
    one: every step of the iteration is one more Python frame. *)

Class Dtype (M E F : Type) : Type := {
  (* [m.shape[0]] *)
  dt_shape0 : M -> nat;
  (* [matrix_power(m, 2)] *)
  dt_matrix_power2 : M -> excecao + M;
  (* [np.sum(m, axis=1)] *)
  dt_sum_axis1 : M -> list E;
  (* [np.sum(v, axis=0)] of a vector *)
  dt_sum : list E -> E;
  (* one quotient of [np.divide] *)
  dt_divide : E -> E -> F;
  (* an entry of [np.zeros] *)
  dt_zero : F;
  (* one difference of [np.subtract] *)
  dt_sub : F -> F -> F;
  (* one entry of [.round(decimals)] *)
  dt_round : F -> Z -> F;
  (* the truth value of a float: [x != 0] *)
  dt_bool : F -> bool
}.

Section AutovalorDtype.

Context {M E F : Type} `{Dtype M E F}.

Open Scope py_scope.

Definition np_subtract_de (a b : list F) : excecao + list F :=
  if Nat.eqb (length a) (length b) then inr (zip_with dt_sub a b)
  else if Nat.eqb (length b) 1 then inr (map (fun x => dt_sub x (hd dt_zero b)) a)
  else if Nat.eqb (length a) 1 then inr (map (fun y => dt_sub (hd dt_zero a) y) b)
  else inl ValueError.

Definition np_round_de (v : list F) (decimals : Z) : list F :=
  map (fun x => dt_round x decimals) v.

Definition np_any_de (v : list F) : bool := existsb dt_bool v.

Fixpoint autovalor_dtype (limite : nat) (matriz_ : M) (precisao interacao : Z)
    (autovetor_anterior : option (list F)) : excecao + list F :=
  matriz_quadrada <- dt_matrix_power2 matriz_ ;;
  let soma_linhas := dt_sum_axis1 matriz_quadrada in
  let soma_coluna := dt_sum soma_linhas in
  let autovetor_atual := map (fun x => dt_divide x soma_coluna) soma_linhas in
  let autovetor_anterior :=
    match autovetor_anterior with
    | None => repeat dt_zero (dt_shape0 matriz_)
    | Some v => v
    end in
  diferenca <- np_subtract_de autovetor_atual autovetor_anterior ;;
  let diferenca := np_round_de diferenca precisao in
  if negb (np_any_de diferenca) then inr (np_round_de autovetor_atual precisao)
  else
    let interacao := (interacao - 1)%Z in
    if (interacao >? 0)%Z
    then match limite with
         | O => inl RecursionError
         | S limite' =>
             autovalor_dtype limite' matriz_quadrada precisao interacao
               (Some autovetor_atual)
         end
    else inr (np_round_de autovetor_atual precisao).

End AutovalorDtype.

(* the exact arithmetic of the rest of this file *)
Definition dtype_exato : Dtype matriz Q Q := {|
  dt_shape0 := shape0;
  dt_matrix_power2 := matrix_power2;
  dt_sum_axis1 := sum_axis1;
  dt_sum := soma;
  dt_divide := Qdiv;
  dt_zero := 0;
  dt_sub := Qminus;
  dt_round := round_;
  dt_bool := fun x => negb (Qeq_bool x 0)
|}.

(** The arrays of machine numbers.  Sums and products are accumulated in the
    order of the indices; the order a BLAS routine takes may change a last bit
    of a float, never an overflow, and changes nothing modulo [2^64]. *)
Section Maquina.

Context {A : Type} (mais vezes : A -> A -> A) (nulo : A).

Definition soma_de (v : list A) : A := fold_left mais v nulo.

(* one row of a product *)
Definition vec_mat_de (a : list A) (b : list (list A)) (colunas : nat) : list A :=
  fold_left (fun acc '(x, linha) => zip_with mais acc (map (vezes x) linha))
    (combine a b) (repeat nulo colunas).

Definition quadrada_de (m : list (list A)) : bool :=
  forallb (fun linha => Nat.eqb (length linha) (length m)) m.

Definition matrix_power2_de (m : list (list A)) : excecao + list (list A) :=
  if quadrada_de m
  then inr (map (fun linha => vec_mat_de linha m (length m)) m)
  else inl LinAlgError.

End Maquina.

(** The [float64] arrays: IEEE 754 binary64 with rounding to nearest, ties to
    even. *)
Module F64.

Import PrimFloat.

Abbreviation float := PrimFloat.float.

(* [np.rint]: below [2^52] adding and removing [2^52] rounds to an integer,
   from [2^52] on every float is one; [nan] compares false and is returned *)
Definition rint_pos (x : float) : float :=
  if ltb x 0x1p52%float then sub (add x 0x1p52%float) 0x1p52%float else x.

Definition rint (x : float) : float :=
  if ltb x 0%float then opp (rint_pos (opp x)) else rint_pos x.

(* the float [10 ** n], exact up to [10 ** 22] *)
Definition pow10 (n : nat) : float := Nat.iter n (mul 10%float) 1%float.

(* [np.round(x, decimals)]: scale in floats, [rint], scale back *)
Definition round_ (x : float) (decimals : Z) : float :=
  if (0 <=? decimals)%Z
  then div (rint (mul x (pow10 (Z.to_nat decimals)))) (pow10 (Z.to_nat decimals))
  else mul (rint (div x (pow10 (Z.to_nat (- decimals))))) (pow10 (Z.to_nat (- decimals))).

Definition soma : list float -> float := soma_de add 0%float.

Definition matrix_power2 : list (list float) -> excecao + list (list float) :=
  matrix_power2_de add mul 0%float.

(* the nearest float of an [int64] *)
Definition de_int (z : Z) : float :=
  if (z =? - 2 ^ 63)%Z then opp 0x1p63%float
  else if (z <? 0)%Z then opp (of_uint63 (Uint63.of_Z (- z)))
  else of_uint63 (Uint63.of_Z z).

(* the float Python computes for the quotient [a / b] of two ints *)
Definition de_fracao (q : Q) : float := div (de_int (Qnum q)) (de_int (Zpos (Qden q))).

Definition dtype : Dtype (list (list float)) float float := {|
  dt_shape0 := fun m => length m;
  dt_matrix_power2 := matrix_power2;
  dt_sum_axis1 := map soma;
  dt_sum := soma;
  dt_divide := div;
  dt_zero := 0%float;
  dt_sub := sub;
  dt_round := round_;
  dt_bool := fun x => negb (eqb x 0%float)
|}.

End F64.

(** The [int64] arrays, which [np.array] builds from Python ints: sums and
    products wrap around modulo [2^64]; [np.divide] converts both operands to
    [float64] and divides there. *)
Module I64.

Definition wrap (z : Z) : Z := ((z + 2 ^ 63) mod 2 ^ 64 - 2 ^ 63)%Z.

Definition add (a b : Z) : Z := wrap (a + b).

Definition mul (a b : Z) : Z := wrap (a * b).

Definition soma : list Z -> Z := soma_de add 0%Z.

Definition matrix_power2 : list (list Z) -> excecao + list (list Z) :=
  matrix_power2_de add mul 0%Z.

Definition dtype : Dtype (list (list Z)) Z F64.float := {|
  dt_shape0 := fun m => length m;
  dt_matrix_power2 := matrix_power2;
  dt_sum_axis1 := map soma;
  dt_sum := soma;
  dt_divide := fun a b => PrimFloat.div (F64.de_int a) (F64.de_int b);
  dt_zero := PrimFloat.zero;
  dt_sub := PrimFloat.sub;
  dt_round := F64.round_;
  dt_bool := fun x => negb (PrimFloat.eqb x PrimFloat.zero)
|}.

End I64.

(** ** Consistency *)

(* the dict [randon_consist_index] *)
Definition randon_consist_index (n : nat) : option Q :=
  match n with
  | 3%nat => Some 0.52 | 4%nat => Some 0.89 | 5%nat => Some 1.11
  | 6%nat => Some 1.25 | 7%nat => Some 1.35 | 8%nat => Some 1.40
  | 9%nat => Some 1.45 | 10%nat => Some 1.49 | 11%nat => Some 1.52
  | 12%nat => Some 1.54 | 13%nat => Some 1.56 | 14%nat => Some 1.58
  | 15%nat => Some 1.59
  | _ => None
  end.

Section Consistencia.

Context `{Numpy}.

(* [len(matriz)] as a number *)
Definition len_Q (m : matriz) : Q := inject_Z (Z.of_nat (length m)).

(* [matriz.shape[0] and matriz.shape[1] > 2]: a non-zero number of rows, and
   more than two columns.  [eigvals] wants a square array. *)
Definition consistencia (matriz_ : matriz) : excecao + (Q * Q * Q) :=
  if negb (Nat.eqb (shape0 matriz_) 0) && Nat.ltb 2 (shape1 matriz_)
  then
    if quadrada matriz_
    then
      let lambda_max := eigvals_max matriz_ in
      let consist_index := (lambda_max - len_Q matriz_) / (len_Q matriz_ - 1) in
      match randon_consist_index (length matriz_) with
      | None => inl KeyError
      | Some ri => inr (lambda_max, consist_index, consist_index / ri)
      end
    else inl LinAlgError
  else inr (0, 0, 0).

End Consistencia.

(** ** The engine *)

Record AHP : Type := {
  metodo : string;
  precisao : Z;
  alternativas : list string;
  criterios : list string;
  sub_criterios : gmap string (list string);
  (* a dict, in the order of its keys *)
  matrizes_preferencias : list (string * list (list Q));
  log : bool;
  prioridades_globais : list vetor
}.

(* [AHP.__init__] *)
Definition novo (metodo_ : string) (precisao_ : Z) (alternativas_ criterios_ : list string)
    (sub_criterios_ : gmap string (list string))
    (matrizes_preferencias_ : list (string * list (list Q))) (log_ : bool) : AHP :=
  {| metodo := metodo_; precisao := precisao_; alternativas := alternativas_;
     criterios := criterios_; sub_criterios := sub_criterios_;
     matrizes_preferencias := matrizes_preferencias_; log := log_;
     prioridades_globais := [] |}.

(* the only attribute a method assigns *)
Definition com_globais (self : AHP) (globais : list vetor) : AHP :=
  {| metodo := metodo self; precisao := precisao self; alternativas := alternativas self;
     criterios := criterios self; sub_criterios := sub_criterios self;
     matrizes_preferencias := matrizes_preferencias self; log := log self;
     prioridades_globais := globais |}.

(* the method [local_priority_vector] runs on a matrix *)
Inductive calculo : Type := Aproximado | Geometrico | Autovalor.

(* [np.array] of a list of rows: rows of different lengths are refused *)
Definition np_array (linhas : list (list Q)) : excecao + matriz :=
  if forallb (fun linha => Nat.eqb (length linha) (shape1 linhas)) linhas
  then inr linhas else inl ValueError.

(* [list.index]: the position of the first occurrence *)
Fixpoint index (l : list string) (x : string) : excecao + nat :=
  match l with
  | [] => inl ValueError
  | y :: l' => if String.eqb y x then inr 0%nat
               else Py.bind (index l' x) (fun i => inr (S i))
  end.

(* [v[i]] *)
Definition getitem (v : vetor) (i : nat) : excecao + Q :=
  match v !! i with
  | Some x => inr x
  | None => inl IndexError
  end.

(* [d[k]] *)
Definition getkey {A : Type} (d : gmap string A) (k : string) : excecao + A :=
  match d !! k with
  | Some x => inr x
  | None => inl KeyError
  end.

(* a [for] loop whose body appends to the accumulator or raises *)
Fixpoint para_cada {A : Type} (corpo : A -> list vetor -> (excecao + unit) * list vetor)
    (l : list A) (globais : list vetor) : (excecao + unit) * list vetor :=
  match l with
  | [] => (inr tt, globais)
  | x :: l' =>
      match corpo x globais with
      | (inr _, globais') => para_cada corpo l' globais'
      | (inl e, globais') => (inl e, globais')
      end
  end.

Section Motor.

Context `{Numpy}.

Open Scope py_scope.

(* the [if] chain of [local_priority_vector] *)
Definition escolha (metodo_ : string) (matriz_ : matriz) : calculo :=
  if String.eqb metodo_ "aproximado" then Aproximado
  else if String.eqb metodo_ "geometrico" then Geometrico
  else if negb (Nat.eqb (shape0 matriz_) 0) && Nat.leb 2 (shape1 matriz_)
       then Autovalor
       else Aproximado.

Definition calcula (c : calculo) (matriz_ : matriz) (precisao_ : Z) : excecao + vetor :=
  match c with
  | Aproximado => aproximado matriz_ precisao_
  | Geometrico => geometrico matriz_ precisao_
  | Autovalor => autovalor_padrao matriz_ precisao_
  end.

(* One turn of the loop of [local_priority_vector].  [np.array([])] has one
   dimension only: [geometrico] divides an empty list by [0], and the two
   other paths reach [mean(axis=1)]. *)
Definition prioridades_de (self : AHP) (linhas : list (list Q)) : excecao + vetor :=
  matriz_ <- np_array linhas ;;
  match matriz_ with
  | [] => if String.eqb (metodo self) "geometrico" then inl TypeError else inl AxisError
  | _ =>
      prioridades_locais <-
        calcula (escolha (metodo self) matriz_) matriz_ (precisao self) ;;
      _ <- consistencia matriz_ ;;
      inr prioridades_locais
  end.

Fixpoint local_priority_vector_laco (self : AHP)
    (matrizes : list (string * list (list Q)))
    (vetor_prioridades_locais : gmap string vetor) : excecao + gmap string vetor :=
  match matrizes with
  | [] => inr vetor_prioridades_locais
  | (criterio, linhas) :: resto =>
      prioridades_locais <- prioridades_de self linhas ;;
      local_priority_vector_laco self resto
        (<[criterio := prioridades_locais]> vetor_prioridades_locais)
  end.

Definition local_priority_vector (self : AHP) : excecao + gmap string vetor :=
  local_priority_vector_laco self (matrizes_preferencias self) ∅.

(* [np.round(peso * prioridades[criterio], self.precisao)] with
   [peso = pesos[criterios.index(criterio)]] *)
Definition prioridade_global_de (self : AHP) (prioridades : gmap string vetor)
    (pesos : vetor) (criterios_ : list string) (criterio : string) : excecao + vetor :=
  i <- index criterios_ criterio ;;
  peso <- getitem pesos i ;;
  prioridades_locais <- getkey prioridades criterio ;;
  inr (np_round (escala peso prioridades_locais) (precisao self)).

(* [limite] is the depth of recursion the interpreter still allows; the
   accumulator [self.prioridades_globais] is the state. *)
Fixpoint global_priority_vector (limite : nat) (self : AHP)
    (prioridades : gmap string vetor) (pesos : vetor) (criterios_ : list string)
    (globais : list vetor) {struct limite} : (excecao + unit) * list vetor :=
  match limite with
  | O => (inl RecursionError, globais)
  | S limite' =>
      para_cada
        (fun criterio globais =>
           match prioridade_global_de self prioridades pesos criterios_ criterio with
           | inl e => (inl e, globais)
           | inr prioridade_global =>
               match sub_criterios self !! criterio with
               | Some filhos =>
                   global_priority_vector limite' self prioridades prioridade_global
                     filhos globais
               | None => (inr tt, globais ++ [prioridade_global])
               end
           end)
        criterios_ globais
  end.

(* [np.array(self.prioridades_globais).sum(axis=0).round(self.precisao)]; of
   an empty list it is the number [0.0], which [zip] cannot iterate *)
Definition soma_global (globais : list vetor) (precisao_ : Z) : excecao + vetor :=
  match globais with
  | [] => inl TypeError
  | _ =>
      prioridades <- np_array globais ;;
      inr (np_round (sum_axis0 prioridades) precisao_)
  end.

(* [dict(zip(chaves, valores))]: a later pair replaces an earlier one *)
Definition dict_zip (chaves : list string) (valores : vetor) : gmap string Q :=
  fold_left (fun d '(k, v) => <[k := v]> d) (combine chaves valores) ∅.

Definition resultado (limite : nat) (self : AHP) : (excecao + gmap string Q) * AHP :=
  match local_priority_vector self with
  | inl e => (inl e, self)
  | inr prioridades =>
      match getkey prioridades "criterios" with
      | inl e => (inl e, self)
      | inr pesos =>
          match global_priority_vector limite self prioridades pesos (criterios self)
                  (prioridades_globais self) with
          | (inl e, globais) => (inl e, com_globais self globais)
          | (inr _, globais) =>
              let self := com_globais self globais in
              (Py.bind (soma_global (prioridades_globais self) (precisao self))
                 (fun prioridades => inr (dict_zip (alternativas self) prioridades)),
               self)
          end
      end
  end.

End Motor.

(** * Definitions used by the statements *)

(** Half a unit of the last decimal place kept by [round_ _ decimals]. *)
Definition meio_ulp (decimals : Z) : Q :=
  if (0 <=? decimals)%Z then (1 # 2) / pow10 decimals
  else (1 # 2) * pow10 (- decimals).

(* the number of entries of a vector, as a rational *)
Definition tamanho (v : vetor) : Q := inject_Z (Z.of_nat (length v)).

(* every row has the length of the first one: the lists that are arrays *)
Definition retangular (m : matriz) : Prop :=
  Forall (fun linha => length linha = shape1 m) m.

(* the candidate of the power iteration: the row sums of the squared matrix
   over their total *)
Definition estimar (matriz_quadrada : matriz) : vetor :=
  map (fun x => x / soma (sum_axis1 matriz_quadrada)) (sum_axis1 matriz_quadrada).

(* a square matrix with at least one row, all of whose entries are positive *)
Definition quadrada_positiva (m : matriz) : Prop :=
  m <> [] /\ quadrada m = true /\ Forall (Forall (fun x => 0 < x)) m.

(* the entry of row [i] and column [j] *)
Definition entrada (m : matriz) (i j : nat) : option Q :=
  match m !! i with
  | Some linha => linha !! j
  | None => None
  end.

(* a pairwise comparison matrix: square, of order one at least, with positive
   entries, [entrada i j * entrada j i = 1] and [entrada i i = 1] *)
Definition valida (m : matriz) : Prop :=
  quadrada_positiva m
  /\ (forall (i j : nat) (a b : Q),
        entrada m i j = Some a -> entrada m j i = Some b -> a * b == 1)
  /\ (forall (i : nat) (a : Q), entrada m i i = Some a -> a == 1).

(** ** The power iteration, in the words of the specification *)

(* the matrix squared [k] times over *)
Fixpoint quadrados (k : nat) (m : matriz) : matriz :=
  match k with
  | O => m
  | S k' => quadrados k' (matmul m m)
  end.

(* the candidates: number 0 is the estimate the iteration starts from, number
   [k] is read off the matrix squared [k] times *)
Definition candidato (anterior : vetor) (m : matriz) (k : nat) : vetor :=
  match k with
  | O => anterior
  | S _ => estimar (quadrados k m)
  end.

(* candidate [k] and candidate [k - 1] differ by a vector that rounds to zero *)
Definition convergiu (anterior : vetor) (m : matriz) (p : Z) (k : nat) : bool :=
  negb (np_any (np_round
    (zip_with Qminus (candidato anterior m k) (candidato anterior m (k - 1))) p)).

(* the number of candidates an iteration budget allows: one at least *)
Definition orcamento (interacao : Z) : nat := Z.to_nat (Z.max 1 interacao).

(** ** The power iteration on any dtype, in the words of the specification *)

Section IteracaoDtype.

Context {M E F : Type} `{Dtype M E F}.

(* the array can be squared *)
Definition quadravel (m : M) : Prop := exists mq : M, dt_matrix_power2 m = inr mq.

(* what every numpy dtype grants: a square has the order of its root and can
   be squared again, and the row sums are as many as the rows *)
Definition dtype_regular : Prop :=
  (forall m mq : M, dt_matrix_power2 m = inr mq ->
                    quadravel mq /\ dt_shape0 mq = dt_shape0 m)
  /\ (forall m : M, length (dt_sum_axis1 m) = dt_shape0 m).

Definition quadrado_de (m : M) : M :=
  match dt_matrix_power2 m with
  | inr mq => mq
  | inl _ => m
  end.

(* the array squared [k] times over *)
Fixpoint quadrados_de (k : nat) (m : M) : M :=
  match k with
  | O => m
  | S k' => quadrados_de k' (quadrado_de m)
  end.

(* the row sums of an array over their total *)
Definition estimar_de (mq : M) : list F :=
  map (fun s => dt_divide s (dt_sum (dt_sum_axis1 mq))) (dt_sum_axis1 mq).

(* the candidates: number 0 is the estimate the iteration starts from, number
   [k] is read off the array squared [k] times *)
Definition candidato_de (anterior : list F) (m : M) (k : nat) : list F :=
  match k with
  | O => anterior
  | S _ => estimar_de (quadrados_de k m)
  end.

(* every entry of candidate [k] differs from the entry of candidate [k - 1] by
   a number that rounds to zero *)
Definition convergiu_de (anterior : list F) (m : M) (p : Z) (k : nat) : bool :=
  forallb (fun '(a, b) => negb (dt_bool (dt_round (dt_sub a b) p)))
    (combine (candidato_de anterior m k) (candidato_de anterior m (k - 1))).

(* step [k] is where the iteration stops: the first step that has converged,
   or the last step of the budget when none has *)
Definition parada (anterior : list F) (m : M) (p interacao : Z) (k : nat) : Prop :=
  (1 <= k <= orcamento interacao)%nat
  /\ (forall j : nat, (1 <= j < k)%nat -> convergiu_de anterior m p j = false)
  /\ (convergiu_de anterior m p k = true \/ k = orcamento interacao).

End IteracaoDtype.

(** ** The hierarchy *)



(* [nivel sub nos k nos']: the list [nos'] is a list of level [k] below [nos];
   [nos] itself is its level 1, and the sub-criteria of a criterion of a list
   of level [k] form a list of level [k + 1] *)
Inductive nivel (sub : gmap string (list string)) : list string -> nat -> list string -> Prop :=
  | nivel_topo (nos : list string) : nivel sub nos 1 nos
  | nivel_desce (nos : list string) (c : string) (filhos : list string) (k : nat)
      (nos' : list string) :
      c ∈ nos -> sub !! c = Some filhos -> nivel sub filhos k nos' ->
      nivel sub nos (S k) nos'.




(* the body of the loop of [global_priority_vector] when [limite] levels of
   recursion remain below it *)
Definition corpo_gpv (limite : nat) (self : AHP) (prioridades : gmap string vetor)
    (pesos : vetor) (criterios_ : list string) (criterio : string)
    (globais : list vetor) : (excecao + unit) * list vetor :=
  match prioridade_global_de self prioridades pesos criterios_ criterio with
  | inl e => (inl e, globais)
  | inr prioridade_global =>
      match sub_criterios self !! criterio with
      | Some filhos =>
          global_priority_vector limite self prioridades prioridade_global filhos globais
      | None => (inr tt, globais ++ [prioridade_global])
      end
  end.




(* the number of entries the walk rounds below one node: those of its own
   contribution, and those below its sub-criteria *)
Definition arredondadas_no (abaixo : list string -> nat)
    (sub : gmap string (list string)) (prioridades : gmap string vetor) (c : string) : nat :=
  (length (default [] (prioridades !! c))
   + match sub !! c with
     | Some filhos => abaixo filhos
     | None => 0
     end)%nat.

(* the number of entries the walk rounds below a list of nodes *)
Fixpoint arredondadas (fuel : nat) (sub : gmap string (list string))
    (prioridades : gmap string vetor) (nos : list string) : nat :=
  match fuel with
  | O => O
  | S fuel' =>
      fold_right
        (fun c acc =>
           (arredondadas_no (arredondadas fuel' sub prioridades) sub prioridades c
            + acc)%nat)
        O nos
  end.


(** ** The selection of the method, in the words of the specification

    An unrecognised method runs the power iteration when the matrix has at
    least 2 rows and 2 columns, and the normalised-column mean otherwise. *)
Definition escolha_spec (metodo_ : string) (matriz_ : matriz) : calculo :=
  if String.eqb metodo_ "aproximado" then Aproximado
  else if String.eqb metodo_ "geometrico" then Geometrico
  else if Nat.leb 2 (shape0 matriz_) && Nat.leb 2 (shape1 matriz_)
       then Autovalor
       else Aproximado.

(** ** Example data *)

(* an instance for the examples: a power that is exact where its exponent is
   [1] or its base is [1], and the eigenvalue of a consistent matrix *)
Definition numpy_exemplo : Numpy := {|
  float_pow := fun x _ => x;
  eigvals_max := fun m => inject_Z (Z.of_nat (length m))
|}.

(* one criterion, two alternatives *)
Definition motor_simples : AHP :=
  novo "aproximado" 4 ["A"; "B"] ["c1"] ∅
    [("criterios", [[1]]); ("c1", [[1; 1]; [1; 1]])] false.

(* a matrix of one row and two columns, and a method that is not recognised *)
Definition motor_uma_linha : AHP :=
  novo "autovalor" 4 ["A"] ["c1"] ∅ [("criterios", [[1; 2]])] false.

(* two criteria, the first with two sub-criteria, and two alternatives *)
Definition motor_dois_niveis : AHP :=
  novo "aproximado" 4 ["A"; "B"] ["c1"; "c2"] {["c1" := ["s1"; "s2"]]} [] false.

Definition prioridades_dois_niveis : gmap string vetor :=
  <["c1" := [1 # 2; 1 # 2]]> (<["c2" := [1 # 2; 1 # 2]]>
  (<["s1" := [3 # 5; 2 # 5]]> (<["s2" := [3 # 10; 7 # 10]]> ∅))).

(* two criteria, the first declared with an empty list of sub-criteria *)
Definition motor_lista_vazia : AHP :=
  novo "aproximado" 4 ["A"; "B"] ["a"; "b"] {["a" := []]}
    [("criterios", [[1; 1]; [1; 1]]);
     ("a", [[1; 1]; [1; 1]]);
     ("b", [[1; 1]; [1; 1]])] false.

Definition prioridades_lista_vazia : gmap string vetor :=
  <["criterios" := [1 # 2; 1 # 2]]> (<["a" := [1 # 2; 1 # 2]]>
  (<["b" := [1 # 2; 1 # 2]]> ∅)).

(* a criterion that is its own sub-criterion *)
Definition motor_ciclico : AHP :=
  novo "aproximado" 4 ["A"] ["a"] {["a" := ["a"]]} [] false.

(* a valid comparison matrix whose judgements contradict one another, and the
   [float64] array Python builds from it *)
Definition matriz_lenta : matriz := [[1; 7; 1 # 9]; [1 # 7; 1; 9]; [9; 1 # 9; 1]].

Definition matriz_lenta_f64 : list (list F64.float) := map (map F64.de_fracao) matriz_lenta.

(** * Properties *)

(** ** Rounding *)

Lemma pow10_pos (n : Z) : (0 <= n)%Z -> 0 < pow10 n.
Proof.
  intros Hn. unfold pow10.
  replace 0 with (inject_Z 0) by reflexivity.
  rewrite <- Zlt_Qlt. apply Z.pow_pos_nonneg; lia.
Qed.

Lemma meio_ulp_pos (d : Z) : 0 < meio_ulp d.
Proof.
  unfold meio_ulp. destruct (Z.leb_spec 0 d) as [Hd | Hd].
  - apply Qlt_shift_div_l; [apply pow10_pos; lia | lra].
  - assert (0 < pow10 (- d)) by (apply pow10_pos; lia). lra.
Qed.

Lemma rint_perto (x : Q) :
  x - (1 # 2) <= inject_Z (rint x) /\ inject_Z (rint x) <= x + (1 # 2).
Proof.
  unfold rint.
  pose proof (Qfloor_le x) as Hlo.
  pose proof (Qlt_floor x) as Hhi.
  rewrite inject_Z_plus in Hhi.
  change (inject_Z 1) with 1 in Hhi.
  destruct (Qcompare_spec (x - inject_Z (Qfloor x)) (1 # 2)) as [He | Hl | Hg].
  - destruct (Z.even (Qfloor x)).
    + split; lra.
    + rewrite inject_Z_plus. change (inject_Z 1) with 1. split; lra.
  - split; lra.
  - rewrite inject_Z_plus. change (inject_Z 1) with 1. split; lra.
Qed.

Lemma round_perto (x : Q) (d : Z) :
  x - meio_ulp d <= round_ x d /\ round_ x d <= x + meio_ulp d.
Proof.
  unfold round_, meio_ulp. destruct (Z.leb_spec 0 d) as [Hd | Hd].
  - assert (HP : 0 < pow10 d) by (apply pow10_pos; lia).
    destruct (rint_perto (x * pow10 d)) as [Hlo Hhi].
    rewrite Qred_correct.
    set (R := inject_Z (rint (x * pow10 d))) in *.
    assert (Hinv : 0 < / pow10 d) by (apply Qinv_lt_0_compat; exact HP).
    assert (Hx : x == (x * pow10 d) * / pow10 d) by (field; lra).
    unfold Qdiv. split.
    + assert (E : x - (1 # 2) * / pow10 d == (x * pow10 d - (1 # 2)) * / pow10 d) by (field; lra).
      rewrite E.
      apply Qmult_le_compat_r; lra.
    + assert (E : x + (1 # 2) * / pow10 d == (x * pow10 d + (1 # 2)) * / pow10 d) by (field; lra).
      rewrite E.
      apply Qmult_le_compat_r; lra.
  - assert (HP : 0 < pow10 (- d)) by (apply pow10_pos; lia).
    destruct (rint_perto (x / pow10 (- d))) as [Hlo Hhi].
    rewrite Qred_correct.
    set (R := inject_Z (rint (x / pow10 (- d)))) in *.
    split.
    + assert (E : x - (1 # 2) * pow10 (- d) == (x / pow10 (- d) - (1 # 2)) * pow10 (- d)) by (field; lra).
      rewrite E.
      apply Qmult_le_compat_r; lra.
    + assert (E : x + (1 # 2) * pow10 (- d) == (x / pow10 (- d) + (1 # 2)) * pow10 (- d)) by (field; lra).
      rewrite E.
      apply Qmult_le_compat_r; lra.
Qed.

Lemma tamanho_cons (x : Q) (v : vetor) : tamanho (x :: v) == 1 + tamanho v.
Proof.
  unfold tamanho. cbn [length]. rewrite Nat2Z.inj_succ, <- Z.add_1_l.
  rewrite inject_Z_plus. reflexivity.
Qed.

Lemma tamanho_nonneg (v : vetor) : 0 <= tamanho v.
Proof.
  unfold tamanho. replace 0 with (inject_Z 0) by reflexivity.
  rewrite <- Zle_Qle. lia.
Qed.

Lemma soma_round_perto (v : vetor) (d : Z) :
  soma v - tamanho v * meio_ulp d <= soma (np_round v d)
  /\ soma (np_round v d) <= soma v + tamanho v * meio_ulp d.
Proof.
  induction v as [| x v [IHlo IHhi]].
  - change (tamanho []) with 0. change (soma (np_round [] d)) with 0.
    change (soma []) with 0. split; lra.
  - cbn [np_round map soma fold_right].
    fold (np_round v d). fold (soma v). fold (soma (np_round v d)).
    destruct (round_perto x d) as [Hlo Hhi].
    rewrite tamanho_cons. split; lra.
Qed.


(** ** The shape of the results *)

Lemma length_np_round (v : vetor) (d : Z) : length (np_round v d) = length v.
Proof. unfold np_round. apply length_map. Qed.

Lemma length_soma_vet (a b : vetor) :
  length a = length b -> length (soma_vet a b) = length a.
Proof. intros E. unfold soma_vet. rewrite length_zip_with. lia. Qed.

Lemma length_vec_mat (a : vetor) (b : matriz) (c : nat) :
  Forall (fun linha => length linha = c) b -> length (vec_mat a b c) = c.
Proof.
  revert b. induction a as [| x a IH]; intros b Hb.
  - destruct b; apply repeat_length.
  - destruct b as [| linha b].
    + apply repeat_length.
    + cbn [vec_mat]. inversion Hb as [| ? ? Hl Hb']; subst.
      rewrite length_soma_vet; unfold escala; rewrite length_map; [reflexivity |].
      rewrite IH by assumption. reflexivity.
Qed.

Lemma quadrada_Forall (m : matriz) :
  quadrada m = true <-> Forall (fun linha => length linha = length m) m.
Proof.
  unfold quadrada. rewrite forallb_forall, Forall_forall.
  split; intros Hq l Hl.
  - apply Nat.eqb_eq, Hq, list_elem_of_In, Hl.
  - apply Nat.eqb_eq, Hq, list_elem_of_In, Hl.
Qed.

Lemma quadrada_shape1 (m : matriz) : quadrada m = true -> shape1 m = length m.
Proof.
  intros Hq. apply quadrada_Forall in Hq.
  destruct m as [| l m]; [reflexivity |].
  inversion Hq; subst. assumption.
Qed.

Lemma quadrada_matmul (m : matriz) : quadrada m = true -> quadrada (matmul m m) = true.
Proof.
  intros Hq. pose proof (quadrada_shape1 m Hq) as Hs.
  apply quadrada_Forall in Hq. apply quadrada_Forall.
  unfold matmul. rewrite length_map, Forall_map.
  apply Forall_forall. intros linha _. cbn.
  rewrite length_vec_mat; [exact Hs |]. rewrite Hs. exact Hq.
Qed.

Lemma length_matmul (a b : matriz) : length (matmul a b) = length a.
Proof. unfold matmul. apply length_map. Qed.

(** ** The dimension error (claim C2) *)

Section Dimensao.

Context `{Numpy}.

Lemma autovalor_rec_eq (k : nat) (m : matriz) (p i : Z) (ant : option vetor) :
  autovalor_rec k m p i ant =
  Py.bind (matrix_power2 m) (fun mq =>
    Py.bind (np_subtract (estimar mq) (default (zeros (shape0 m)) ant)) (fun dif =>
      if negb (np_any (np_round dif p)) then inr (np_round (estimar mq) p)
      else if (i - 1 >? 0)%Z
           then match k with
                | O => inl RecursionError
                | S k' => autovalor_rec k' mq p (i - 1) (Some (estimar mq))
                end
           else inr (np_round (estimar mq) p))).
Proof. destruct k, ant; reflexivity. Qed.

Lemma autovalor_rec_quadrada (k : nat) (m : matriz) (p i : Z) (ant : option vetor) :
  quadrada m = true -> autovalor_rec k m p i ant <> inl LinAlgError.
Proof.
  revert m i ant. induction k as [| k IH]; intros m i ant Hq;
    rewrite autovalor_rec_eq; unfold matrix_power2; rewrite Hq; cbn [Py.bind];
    (destruct (np_subtract _ _) as [e | dif] eqn:Hsub; cbn [Py.bind];
     [ unfold np_subtract in Hsub; repeat case_match; congruence |]);
    repeat case_match; try congruence.
  apply IH, quadrada_matmul, Hq.
Qed.

Lemma mapM_media_geometrica (m : matriz) :
  match Py.mapM media_geometrica_linha m with
  | inl e => e = ZeroDivisionError
  | inr l => length l = length m
  end.
Proof.
  induction m as [| linha m IH]; [reflexivity |].
  cbn [Py.mapM]. unfold media_geometrica_linha at 1.
  destruct (length linha); cbn [Py.bind]; [reflexivity |].
  destruct (Py.mapM media_geometrica_linha m); cbn [Py.bind length]; congruence.
Qed.

Lemma mapM_media_geometrica_ok (m : matriz) :
  Forall (fun linha => length linha <> 0%nat) m ->
  exists l, Py.mapM media_geometrica_linha m = inr l /\ length l = length m.
Proof.
  induction 1 as [| linha m Hl _ [l [IH Hlen]]]; [exists []; split; reflexivity |].
  cbn [Py.mapM]. unfold media_geometrica_linha at 1.
  destruct (length linha) eqn:E; [congruence |]. cbn [Py.bind].
  rewrite IH. cbn [Py.bind]. eexists. split; [reflexivity |]. cbn [length]. congruence.
Qed.

(** C2, as amended.  Only the power iteration looks at the shape: [autovalor]
    raises the dimension error ([LinAlgError], from [matrix_power]) exactly when
    its matrix is not square.  [aproximado] and [geometrico] never raise a
    dimension error: on an array of at least one row and one column, square or
    not, each returns a vector with one entry per row. *)
Theorem erro_de_dimensao (m : matriz) (p : Z) :
  (forall (i : Z) (ant : option vetor),
     autovalor m p i ant = inl LinAlgError <-> quadrada m = false)
  /\ aproximado m p <> inl LinAlgError
  /\ geometrico m p <> inl LinAlgError
  /\ (m <> [] -> shape1 m <> 0%nat -> retangular m ->
      exists v w : vetor,
        aproximado m p = inr v /\ length v = length m
        /\ geometrico m p = inr w /\ length w = length m).
Proof.
  split; [| split; [| split]].
  - intros i ant. unfold autovalor. split.
    + intros Herr. destruct (quadrada m) eqn:Hq; [| reflexivity].
      exfalso. revert Herr. apply autovalor_rec_quadrada, Hq.
    + intros Hq. rewrite autovalor_rec_eq. unfold matrix_power2. rewrite Hq. reflexivity.
  - discriminate.
  - unfold geometrico. pose proof (mapM_media_geometrica m) as Hm.
    destruct (Py.mapM media_geometrica_linha m) as [e | l]; cbn [Py.bind].
    + congruence.
    + destruct l; discriminate.
  - intros Hne Hc Hret.
    exists (np_round (mean_axis1 (divide_linhas m (sum_axis0 m))) p).
    destruct (mapM_media_geometrica_ok m) as [l [Hl Hlen]].
    { unfold retangular in Hret. eapply Forall_impl; [exact Hret |].
      cbn. intros linha E. congruence. }
    exists (np_round (map (fun x => x / soma l) l) p).
    split; [reflexivity |]. split.
    { rewrite length_np_round. unfold mean_axis1, divide_linhas.
      rewrite !length_map. reflexivity. }
    split.
    { unfold geometrico. rewrite Hl. cbn [Py.bind].
      destruct l; [| reflexivity]. destruct m; [congruence | discriminate]. }
    rewrite length_np_round, length_map. exact Hlen.
Qed.

End Dimensao.

(** A matrix of two rows and three columns: [aproximado] and [geometrico] return
    a vector, they do not fail. *)
Lemma metodos_sem_erro_de_dimensao :
  quadrada [[1; 2; 3]; [4; 5; 6]] = false
  /\ aproximado [[1; 2; 3]; [4; 5; 6]] 4 = inr [273 # 1000; 727 # 1000]
  /\ @geometrico numpy_exemplo [[1; 1; 1]; [1; 1; 1]] 4 = inr [1 # 2; 1 # 2].
Proof. vm_compute. repeat split. Qed.

Lemma erro_de_dimensao_witness :
  exists v w : vetor,
    aproximado [[1; 2; 3]; [4; 5; 6]] 4 = inr v /\ length v = 2%nat
    /\ @geometrico numpy_exemplo [[1; 2; 3]; [4; 5; 6]] 4 = inr w /\ length w = 2%nat.
Proof.
  apply (@erro_de_dimensao numpy_exemplo [[1; 2; 3]; [4; 5; 6]] 4).
  - discriminate.
  - cbn. lia.
  - repeat constructor.
Defined.

(** ** The selection of the method (claim C3) *)

(** On a square matrix the [if] chain of the code and the policy of the
    specification choose the same method. *)
Lemma escolha_quadrada (metodo_ : string) (m : matriz) :
  quadrada m = true -> escolha metodo_ m = escolha_spec metodo_ m.
Proof.
  intros Hq. unfold escolha, escolha_spec.
  rewrite (quadrada_shape1 m Hq). unfold shape0.
  destruct (length m) as [| [| n]]; reflexivity.
Qed.

(** C3 at a matrix of one row and two columns with a method that is not
    recognised.  The policy of the specification selects the normalised-column
    mean, which returns [[1]]; the test of the code,
    [matriz.shape[0] and matriz.shape[1] >= 2], asks for a non-zero number of
    rows only, selects the power iteration, and the power iteration fails. *)
Theorem escolha_uma_linha :
  escolha_spec "autovalor" [[1; 2]] = Aproximado
  /\ aproximado [[1; 2]] 4 = inr [1]
  /\ escolha "autovalor" [[1; 2]] = Autovalor
  /\ @prioridades_de numpy_exemplo motor_uma_linha [[1; 2]] = inl LinAlgError
  /\ fst (@resultado numpy_exemplo 1000 motor_uma_linha) = inl LinAlgError.
Proof. vm_compute. repeat split. Qed.

(** ** Consistency (claims C5 and C6) *)

Section ConsistenciaProps.

Context `{Numpy}.

Lemma randon_consist_index_dom (n : nat) :
  (2 < n <= 15)%nat <-> is_Some (randon_consist_index n).
Proof.
  split.
  - intros Hn. do 16 (destruct n as [| n]; [cbn; first [lia | eauto] |]). lia.
  - intros [ri Hri]. do 16 (destruct n as [| n]; [first [discriminate | lia] |]).
    discriminate.
Qed.

(** C5.  On a square matrix of order at most 2, [consistencia] returns
    [(0, 0, 0)] whatever the entries; on a square matrix of order [n] with
    [2 < n <= 15] it returns [lambda_max], [CI = (lambda_max - n) / (n - 1)]
    and [CR = CI / RI(n)], [n] being the number of rows of the matrix and [RI]
    the table of thirteen values listed here. *)
Theorem consistencia_quadrada (m : matriz) :
  quadrada m = true ->
  ((length m <= 2)%nat -> consistencia m = inr (0, 0, 0))
  /\ ((2 < length m <= 15)%nat ->
      exists ri : Q,
        nth_error [0.52; 0.89; 1.11; 1.25; 1.35; 1.40; 1.45; 1.49; 1.52; 1.54; 1.56;
                   1.58; 1.59] (length m - 3) = Some ri
        /\ consistencia m =
           inr (eigvals_max m,
                (eigvals_max m - inject_Z (Z.of_nat (length m)))
                / (inject_Z (Z.of_nat (length m)) - 1),
                (eigvals_max m - inject_Z (Z.of_nat (length m)))
                / (inject_Z (Z.of_nat (length m)) - 1) / ri)).
Proof.
  intros Hq. pose proof (quadrada_shape1 m Hq) as Hs.
  unfold consistencia, len_Q. rewrite Hq, Hs. unfold shape0.
  split.
  - intros Hn. destruct (length m) as [| [| [| n]]]; try reflexivity. lia.
  - intros Hn. clear Hs. generalize dependent (length m). intros n Hn.
    do 3 (destruct n as [| n]; [lia |]).
    do 13 (destruct n as [| n]; [eexists; split; reflexivity |]). lia.
Qed.

(** C6.  On a square matrix of order above 15 the lookup of the Random Index
    raises [KeyError], and [consistencia] lets it out. *)
Theorem consistencia_ordem_grande (m : matriz) :
  quadrada m = true -> (15 < length m)%nat -> consistencia m = inl KeyError.
Proof.
  intros Hq Hn. pose proof (quadrada_shape1 m Hq) as Hs.
  unfold consistencia. rewrite Hq, Hs. unfold shape0.
  destruct (randon_consist_index (length m)) as [ri |] eqn:Hri.
  - assert (is_Some (randon_consist_index (length m))) as Hs' by eauto.
    apply randon_consist_index_dom in Hs'. lia.
  - destruct (length m) as [| [| [| n]]]; try lia. reflexivity.
Qed.

End ConsistenciaProps.

Lemma consistencia_quadrada_witness :
  @consistencia numpy_exemplo [[1; 7]; [3; 1]] = inr (0, 0, 0)
  /\ exists ri : Q,
       nth_error [0.52; 0.89; 1.11; 1.25; 1.35; 1.40; 1.45; 1.49; 1.52; 1.54; 1.56;
                  1.58; 1.59] (4 - 3) = Some ri
       /\ @consistencia numpy_exemplo
            [[1; 1; 1; 1]; [1; 1; 1; 1]; [1; 1; 1; 1]; [1; 1; 1; 1]] =
          inr (4, (4 - 4) / (4 - 1), (4 - 4) / (4 - 1) / ri).
Proof.
  split.
  - apply (@consistencia_quadrada numpy_exemplo [[1; 7]; [3; 1]]); [reflexivity |].
    cbn. lia.
  - apply (@consistencia_quadrada numpy_exemplo
             [[1; 1; 1; 1]; [1; 1; 1; 1]; [1; 1; 1; 1]; [1; 1; 1; 1]]);
      [reflexivity |].
    cbn. lia.
Defined.

Lemma consistencia_ordem_grande_witness :
  @consistencia numpy_exemplo (repeat (repeat 1 16) 16) = inl KeyError.
Proof.
  apply (@consistencia_ordem_grande numpy_exemplo (repeat (repeat 1 16) 16)).
  - reflexivity.
  - cbn. lia.
Defined.

(** ** The inherited weight (claim C10) *)

Lemma index_primeira (l : list string) (x : string) (i : nat) :
  l !! i = Some x ->
  exists j : nat,
    index l x = inr j /\ (j <= i)%nat /\ l !! j = Some x
    /\ forall k : nat, (k < j)%nat -> l !! k <> Some x.
Proof.
  revert i. induction l as [| y l IH]; intros i Hi; [discriminate |].
  cbn [index]. destruct (String.eqb_spec y x) as [-> | Hne].
  - exists 0%nat. repeat split; [lia | intros k Hk; lia].
  - destruct i as [| i]; [cbn in Hi; congruence |].
    destruct (IH i Hi) as [j [Hj [Hle [Hlk Hmin]]]].
    exists (S j). rewrite Hj. cbn [Py.bind]. repeat split; [lia | exact Hlk |].
    intros [| k] Hk; cbn; [congruence | apply Hmin; lia].
Qed.

Section Peso.


Lemma para_cada_acrescenta {A : Type}
    (corpo : A -> list vetor -> (excecao + unit) * list vetor)
    (f : A -> excecao + vetor) (l : list A) (contribuicoes globais : list vetor) :
  (forall x g, corpo x g = match f x with
                           | inl e => (inl e, g)
                           | inr v => (inr tt, g ++ [v])
                           end) ->
  Py.mapM f l = inr contribuicoes ->
  para_cada corpo l globais = (inr tt, globais ++ contribuicoes).
Proof.
  intros Hcorpo. revert contribuicoes globais.
  induction l as [| x l IH]; intros contribuicoes globais Hm.
  - cbn in Hm. injection Hm as <-. cbn. rewrite app_nil_r. reflexivity.
  - cbn [Py.mapM] in Hm. cbn [para_cada]. rewrite Hcorpo.
    destruct (f x) as [e | v]; cbn [Py.bind] in Hm; [discriminate |].
    destruct (Py.mapM f l) as [e | vs]; cbn [Py.bind] in Hm; [discriminate |].
    injection Hm as <-. rewrite (IH vs) by reflexivity.
    rewrite <- app_assoc. reflexivity.
Qed.

(** In a hierarchy without sub-criteria the walk appends, for each node in
    turn, the contribution computed with that weight. *)
Lemma global_priority_vector_folhas (limite : nat) (self : AHP)
    (prioridades : gmap string vetor) (pesos : vetor) (nos : list string)
    (contribuicoes globais : list vetor) :
  sub_criterios self = ∅ ->
  Py.mapM (prioridade_global_de self prioridades pesos nos) nos = inr contribuicoes ->
  global_priority_vector (S limite) self prioridades pesos nos globais
  = (inr tt, globais ++ contribuicoes).
Proof.
  intros Hsub Hm. cbn [global_priority_vector].
  apply para_cada_acrescenta with (f := prioridade_global_de self prioridades pesos nos);
    [| exact Hm].
  intros c g. destruct (prioridade_global_de self prioridades pesos nos c); [reflexivity |].
  rewrite Hsub, lookup_empty. reflexivity.
Qed.

End Peso.


(** The same node twice, with the weights 0.7 and 0.3: both contributions carry
    the weight 0.7. *)
Example peso_repetido :
  global_priority_vector 1000 motor_simples {["a" := [1 # 2; 1 # 2]]}
    [7 # 10; 3 # 10] ["a"; "a"] []
  = (inr tt, [[7 # 20; 7 # 20]; [7 # 20; 7 # 20]]).
Proof. vm_compute. reflexivity. Qed.

(** ** The accumulator across two runs (claim C1) *)

(** C1 at an engine of one criterion and two alternatives.  The first
    [resultado()] returns the ranking [A: 0.5, B: 0.5] and leaves its
    contribution in [self.prioridades_globais]; the second one, on the same
    engine, adds its contribution to that list and returns [A: 1, B: 1]. *)
Theorem resultado_duas_vezes (np : Numpy) :
  let primeira := @resultado np 1000 motor_simples in
  let segunda := @resultado np 1000 (snd primeira) in
  prioridades_globais motor_simples = []
  /\ fst primeira = inr (dict_zip ["A"; "B"] [1 # 2; 1 # 2])
  /\ prioridades_globais (snd primeira) = [[1 # 2; 1 # 2]]
  /\ fst segunda = inr (dict_zip ["A"; "B"] [1; 1])
  /\ prioridades_globais (snd segunda) = [[1 # 2; 1 # 2]; [1 # 2; 1 # 2]]
  /\ fst segunda <> fst primeira.
Proof.
  cbv zeta.
  assert (E1 : @resultado np 1000 motor_simples
               = (inr (dict_zip ["A"; "B"] [1 # 2; 1 # 2]),
                  com_globais motor_simples [[1 # 2; 1 # 2]]))
    by (vm_compute; reflexivity).
  rewrite E1. cbn [fst snd].
  assert (E2 : @resultado np 1000 (com_globais motor_simples [[1 # 2; 1 # 2]])
               = (inr (dict_zip ["A"; "B"] [1; 1]),
                  com_globais motor_simples [[1 # 2; 1 # 2]; [1 # 2; 1 # 2]]))
    by (vm_compute; reflexivity).
  rewrite E2. cbn [fst snd].
  repeat split.
  intros Heq.
  apply (f_equal (fun r : excecao + gmap string Q =>
                    match r with inr d => d !! "A" | inl _ => None end)) in Heq.
  vm_compute in Heq. discriminate.
Qed.

(** ** The power iteration in exact arithmetic *)

Section Iteracao.

Context `{Numpy}.

Lemma length_estimar (m : matriz) : length (estimar m) = length m.
Proof. unfold estimar, sum_axis1. rewrite !length_map. reflexivity. Qed.

Lemma candidato_S (ant : vetor) (m : matriz) (j : nat) :
  candidato ant m (S j) = candidato (estimar (matmul m m)) (matmul m m) j.
Proof. destruct j; reflexivity. Qed.

Lemma convergiu_S (ant : vetor) (m : matriz) (p : Z) (j : nat) :
  (1 <= j)%nat ->
  convergiu ant m p (S j) = convergiu (estimar (matmul m m)) (matmul m m) p j.
Proof.
  intros Hj. unfold convergiu. rewrite candidato_S.
  replace (S j - 1)%nat with (S (j - 1)) by lia.
  rewrite candidato_S. reflexivity.
Qed.

Lemma autovalor_rec_candidato (c : nat) (m : matriz) (p i : Z) (ant : vetor) :
  quadrada m = true -> length ant = length m -> (Z.to_nat i - 1 <= c)%nat ->
  exists k : nat,
    (1 <= k <= orcamento i)%nat
    /\ (forall j : nat, (1 <= j < k)%nat -> convergiu ant m p j = false)
    /\ (convergiu ant m p k = true \/ k = orcamento i)
    /\ autovalor_rec c m p i (Some ant) = inr (np_round (candidato ant m k) p).
Proof.
  revert m i ant. induction c as [| c IH]; intros m i ant Hq Hlen Hc;
    rewrite autovalor_rec_eq; unfold matrix_power2; rewrite Hq;
    cbn [Py.bind default from_option id];
    unfold np_subtract; rewrite length_estimar, length_matmul, Hlen, Nat.eqb_refl;
    cbn [Py.bind];
    change (negb (np_any (np_round (zip_with Qminus (estimar (matmul m m)) ant) p)))
      with (convergiu ant m p 1);
    destruct (convergiu ant m p 1) eqn:Hconv.
  - exists 1%nat. unfold orcamento. repeat split; [lia | lia | intros; lia | auto].
  - destruct (Z.gtb_spec (i - 1) 0) as [Hi | Hi]; [lia |].
    exists 1%nat. unfold orcamento. repeat split; [lia | lia | intros; lia | right; lia].
  - exists 1%nat. unfold orcamento. repeat split; [lia | lia | intros; lia | auto].
  - destruct (Z.gtb_spec (i - 1) 0) as [Hi | Hi].
    + destruct (IH (matmul m m) (i - 1)%Z (estimar (matmul m m)))
        as [k [Hk [Hfirst [Hlast Hres]]]].
      { apply quadrada_matmul, Hq. }
      { apply length_estimar. }
      { lia. }
      unfold orcamento in *.
      exists (S k). split; [lia |]. split; [| split].
      * intros j Hj. destruct (decide (j = 1%nat)) as [-> | Hne]; [exact Hconv |].
        destruct j as [| j]; [lia |]. rewrite convergiu_S by lia. apply Hfirst. lia.
      * destruct Hlast as [Hlast | Hlast].
        -- left. rewrite convergiu_S by lia. exact Hlast.
        -- right. lia.
      * rewrite Hres, candidato_S. reflexivity.
    + exists 1%nat. unfold orcamento. repeat split; [lia | lia | intros; lia | right; lia].
Qed.

End Iteracao.

(** ** The power iteration on any dtype (claim C7) *)

Section IteracaoDtypeProps.

Context {M E F : Type} `{Dtype M E F}.

Lemma quadrado_de_ok (m mq : M) : dt_matrix_power2 m = inr mq -> quadrado_de m = mq.
Proof. intros Hq. unfold quadrado_de. rewrite Hq. reflexivity. Qed.

Lemma candidato_de_S (anterior : list F) (m mq : M) (j : nat) :
  dt_matrix_power2 m = inr mq ->
  candidato_de anterior m (S j) = candidato_de (estimar_de mq) mq j.
Proof.
  intros Hq. destruct j as [| j]; cbn [candidato_de quadrados_de];
    rewrite (quadrado_de_ok m mq Hq); reflexivity.
Qed.

Lemma convergiu_de_S (anterior : list F) (m mq : M) (p : Z) (j : nat) :
  dt_matrix_power2 m = inr mq ->
  convergiu_de anterior m p (S (S j)) = convergiu_de (estimar_de mq) mq p (S j).
Proof.
  intros Hq. unfold convergiu_de.
  replace (S (S j) - 1)%nat with (S j) by lia.
  replace (S j - 1)%nat with j by lia.
  rewrite !(candidato_de_S anterior m mq _ Hq). reflexivity.
Qed.

Lemma length_estimar_de (mq : M) : length (estimar_de mq) = length (dt_sum_axis1 mq).
Proof. unfold estimar_de. apply length_map. Qed.

(* no entry is true exactly when every entry is false *)
Lemma nenhum_arredondado (a b : list F) (p : Z) :
  negb (np_any_de (np_round_de (zip_with dt_sub a b) p)) =
  forallb (fun '(x, y) => negb (dt_bool (dt_round (dt_sub x y) p))) (combine a b).
Proof.
  unfold np_any_de, np_round_de. revert b.
  induction a as [| x a IH]; intros [| y b]; try reflexivity.
  cbn. rewrite negb_orb, IH. reflexivity.
Qed.

(* one call of the iteration *)
Lemma autovalor_dtype_passo (limite : nat) (m mq : M) (p interacao : Z)
    (anterior : list F) :
  dtype_regular -> dt_matrix_power2 m = inr mq -> length anterior = dt_shape0 m ->
  autovalor_dtype limite m p interacao (Some anterior) =
  if convergiu_de anterior m p 1
  then inr (map (fun x => dt_round x p) (estimar_de mq))
  else if (interacao - 1 >? 0)%Z
       then match limite with
            | O => inl RecursionError
            | S limite' =>
                autovalor_dtype limite' mq p (interacao - 1) (Some (estimar_de mq))
            end
       else inr (map (fun x => dt_round x p) (estimar_de mq)).
Proof.
  intros [Hquad Hsum] Hq Hlen.
  destruct (Hquad m mq Hq) as [_ Hshape].
  assert (Hl : length (estimar_de mq) = length anterior).
  { rewrite length_estimar_de, Hsum, Hshape, Hlen. reflexivity. }
  unfold convergiu_de.
  change (1 - 1)%nat with 0%nat.
  rewrite (candidato_de_S anterior m mq 0 Hq).
  cbn [candidato_de].
  rewrite <- nenhum_arredondado.
  destruct limite as [| limite']; cbn [autovalor_dtype]; rewrite Hq; cbn [Py.bind];
    fold (estimar_de mq); unfold np_subtract_de; rewrite Hl, Nat.eqb_refl;
    cbn [Py.bind]; reflexivity.
Qed.


Lemma parada_unica (anterior : list F) (m : M) (p interacao : Z) (k k' : nat) :
  parada anterior m p interacao k -> parada anterior m p interacao k' -> k = k'.
Proof.
  intros (Hk & Hfirst & Hlast) (Hk' & Hfirst' & Hlast').
  destruct (Nat.lt_trichotomy k k') as [Hlt | [Heq | Hgt]]; [| exact Heq |].
  - destruct Hlast as [Hc | Hb]; [| lia].
    rewrite Hfirst' in Hc by lia. discriminate.
  - destruct Hlast' as [Hc | Hb]; [| lia].
    rewrite Hfirst in Hc by lia. discriminate.
Qed.

Lemma orcamento_pred (interacao : Z) :
  (interacao - 1 > 0)%Z -> orcamento (interacao - 1) = (orcamento interacao - 1)%nat.
Proof. unfold orcamento. lia. Qed.

(* the iteration returns at its stopping step when its calls may nest that
   deep, and dies of the nesting otherwise *)
Lemma autovalor_dtype_parada (Hreg : dtype_regular) (limite : nat) :
  forall (m : M) (p interacao : Z) (anterior : list F) (k : nat),
    quadravel m -> length anterior = dt_shape0 m ->
    parada anterior m p interacao k ->
    ((k <= S limite)%nat ->
     autovalor_dtype limite m p interacao (Some anterior) =
     inr (map (fun x => dt_round x p) (candidato_de anterior m k)))
    /\ ((S limite < k)%nat ->
        autovalor_dtype limite m p interacao (Some anterior) = inl RecursionError).
Proof.
  induction limite as [| limite IH]; intros m p interacao anterior k [mq Hq] Hlen
    (Hk & Hfirst & Hlast);
    rewrite (autovalor_dtype_passo _ m mq p interacao anterior Hreg Hq Hlen).
  - destruct (Nat.eq_dec k 1%nat) as [-> | Hk1].
    + split; [intros _ | lia].
      rewrite (candidato_de_S anterior m mq 0 Hq). cbn [candidato_de].
      destruct (convergiu_de anterior m p 1); [reflexivity |].
      destruct Hlast as [Hc | Hb]; [discriminate |].
      destruct (Z.gtb_spec (interacao - 1) 0) as [Hi | Hi]; [| reflexivity].
      unfold orcamento in Hb. lia.
    + split; [lia | intros _].
      rewrite (Hfirst 1%nat) by lia.
      destruct (Z.gtb_spec (interacao - 1) 0) as [Hi | Hi]; [reflexivity |].
      unfold orcamento in Hk. lia.
  - destruct (Nat.eq_dec k 1%nat) as [-> | Hk1].
    + split; [intros _ | lia].
      rewrite (candidato_de_S anterior m mq 0 Hq). cbn [candidato_de].
      destruct (convergiu_de anterior m p 1); [reflexivity |].
      destruct Hlast as [Hc | Hb]; [discriminate |].
      destruct (Z.gtb_spec (interacao - 1) 0) as [Hi | Hi]; [| reflexivity].
      unfold orcamento in Hb. lia.
    + rewrite (Hfirst 1%nat) by lia.
      destruct (Z.gtb_spec (interacao - 1) 0) as [Hi | Hi];
        [| unfold orcamento in Hk; lia].
      destruct k as [| [| k]]; [lia | lia |].
      destruct Hreg as [Hquad Hsum].
      destruct (Hquad m mq Hq) as [Hmq Hshape].
      destruct (IH mq p (interacao - 1)%Z (estimar_de mq) (S k) Hmq) as [Hret Herr].
      * rewrite length_estimar_de. apply Hsum.
      * split; [| split].
        -- rewrite orcamento_pred by lia. lia.
        -- intros j Hj. destruct j as [| j]; [lia |].
           rewrite <- (convergiu_de_S anterior m mq p j Hq). apply Hfirst. lia.
        -- rewrite <- (convergiu_de_S anterior m mq p k Hq).
           rewrite orcamento_pred by lia.
           destruct Hlast as [Hc | Hb]; [left; exact Hc | right; lia].
      * rewrite (candidato_de_S anterior m mq (S k) Hq).
        split; intros Hlim; [apply Hret | apply Herr]; lia.
Qed.

End IteracaoDtypeProps.

(** *** The dtypes of numpy are regular *)

Section MaquinaProps.

Context {A : Type} (mais vezes : A -> A -> A) (nulo : A).

Lemma length_vec_mat_de (a : list A) (b : list (list A)) (n : nat) :
  Forall (fun linha => length linha = n) b ->
  length (vec_mat_de mais vezes nulo a b n) = n.
Proof.
  intros Hb. unfold vec_mat_de.
  assert (Hacc : length (repeat nulo n) = n) by apply repeat_length.
  revert Hacc. generalize (repeat nulo n). revert b Hb.
  induction a as [| x a IH]; intros b Hb acc Hacc; [exact Hacc |].
  destruct b as [| linha b]; [exact Hacc |].
  cbn [combine fold_left]. apply Forall_cons in Hb as [Hl Hb'].
  apply IH; [exact Hb' |].
  rewrite length_zip_with, length_map, Hacc, Hl. lia.
Qed.

Lemma quadrada_de_Forall (m : list (list A)) :
  quadrada_de m = true <-> Forall (fun linha => length linha = length m) m.
Proof.
  unfold quadrada_de. rewrite forallb_forall, Forall_forall.
  split; intros Hq l Hl; apply Nat.eqb_eq, Hq, list_elem_of_In, Hl.
Qed.

Lemma matrix_power2_de_regular (m mq : list (list A)) :
  matrix_power2_de mais vezes nulo m = inr mq ->
  (exists mq', matrix_power2_de mais vezes nulo mq = inr mq') /\ length mq = length m.
Proof.
  unfold matrix_power2_de. destruct (quadrada_de m) eqn:Hq; [| discriminate].
  intros [= <-]. rewrite length_map. split; [| reflexivity].
  replace (quadrada_de (map (fun linha => vec_mat_de mais vezes nulo linha m (length m)) m))
    with true; [eexists; reflexivity |].
  symmetry. apply quadrada_de_Forall. rewrite length_map.
  apply Forall_map, Forall_forall. intros linha _. cbn.
  apply length_vec_mat_de, quadrada_de_Forall, Hq.
Qed.

End MaquinaProps.

Lemma dtype_float64_regular : @dtype_regular _ _ _ F64.dtype.
Proof.
  split.
  - intros m mq Hq. exact (matrix_power2_de_regular _ _ _ m mq Hq).
  - intros m. apply length_map.
Qed.

Lemma dtype_int64_regular : @dtype_regular _ _ _ I64.dtype.
Proof.
  split.
  - intros m mq Hq. exact (matrix_power2_de_regular _ _ _ m mq Hq).
  - intros m. apply length_map.
Qed.

Lemma dtype_exato_regular : @dtype_regular _ _ _ dtype_exato.
Proof.
  split.
  - intros m mq Hq. cbn in Hq. unfold matrix_power2 in Hq.
    destruct (quadrada m) eqn:Hm; [| discriminate]. injection Hq as <-.
    split; [| apply length_matmul].
    exists (matmul (matmul m m) (matmul m m)). cbn. unfold matrix_power2.
    rewrite (quadrada_matmul m Hm). reflexivity.
  - intros m. apply length_map.
Qed.

(* [autovalor] is the iteration on the exact dtype, with an allowance of
   nested calls that its budget never uses up *)
Lemma autovalor_rec_dtype (chamadas : nat) (m : matriz) (p i : Z) (ant : option vetor) :
  autovalor_rec chamadas m p i ant = @autovalor_dtype _ _ _ dtype_exato chamadas m p i ant.
Proof.
  revert m i ant. induction chamadas as [| c IH]; intros m i ant; rewrite autovalor_rec_eq.
  - destruct ant; reflexivity.
  - cbn [autovalor_dtype]. destruct (matrix_power2 m) as [e | mq] eqn:Hq.
    + change (@dt_matrix_power2 _ _ _ dtype_exato m) with (matrix_power2 m).
      rewrite Hq. reflexivity.
    + change (@dt_matrix_power2 _ _ _ dtype_exato m) with (matrix_power2 m).
      rewrite Hq. cbn [Py.bind]. rewrite IH. destruct ant; reflexivity.
Qed.

Lemma autovalor_dtype_exato (m : matriz) (p i : Z) (ant : option vetor) :
  autovalor m p i ant = @autovalor_dtype _ _ _ dtype_exato (Z.to_nat i) m p i ant.
Proof. apply autovalor_rec_dtype. Qed.




(** What the real arrays give: the [int64] squares of a small integer matrix
    wrap around, and the iteration returns what is left of them. *)
Example autovalor_int64 :
  @autovalor_dtype _ _ _ I64.dtype 999 [[1; 2]; [4; 1]]%Z 4 100 None
  = inr [F64.de_fracao (284 # 1000); F64.de_fracao (716 # 1000)]
  /\ autovalor [[1; 2]; [4; 1]] 4 100 None = inr [2071 # 5000; 2929 # 5000].
Proof. vm_compute. split; reflexivity. Qed.

(** In exact arithmetic a consistent matrix converges at the second step; a budget of one step
    returns the first candidate. *)
Example autovalor_dois_passos :
  convergiu (zeros 2) [[1; 2]; [1 # 2; 1]] 4 1 = false
  /\ convergiu (zeros 2) [[1; 2]; [1 # 2; 1]] 4 2 = true
  /\ autovalor_padrao [[1; 2]; [1 # 2; 1]] 4 = inr [6667 # 10000; 3333 # 10000]
  /\ autovalor [[1; 3; 5]; [1 # 3; 1; 3]; [1 # 5; 1 # 3; 1]] 4 1 None
     = inr (np_round (candidato (zeros 3) [[1; 3; 5]; [1 # 3; 1; 3]; [1 # 5; 1 # 3; 1]] 1) 4).
Proof. vm_compute. repeat split. Qed.

(** ** Sums of normalised and of positive vectors *)

Lemma soma_cons (x : Q) (v : vetor) : soma (x :: v) = x + soma v.
Proof. reflexivity. Qed.

Lemma soma_divide (v : vetor) (s : Q) : soma (map (fun x => x / s) v) == soma v / s.
Proof.
  induction v as [| x v IH].
  - cbn. unfold Qdiv. ring.
  - cbn [map]. rewrite !soma_cons, IH. unfold Qdiv. ring.
Qed.

Lemma soma_normalizada (v : vetor) : ~ soma v == 0 -> soma (map (fun x => x / soma v) v) == 1.
Proof. intros Hs. rewrite soma_divide. field. exact Hs. Qed.


Lemma soma_nonneg (v : vetor) : Forall (fun x => 0 <= x) v -> 0 <= soma v.
Proof.
  induction 1 as [| x v Hx _ IH]; [cbn; lra |]. rewrite soma_cons. lra.
Qed.

Lemma soma_pos (v : vetor) : v <> [] -> Forall (fun x => 0 < x) v -> 0 < soma v.
Proof.
  intros Hne Hv. destruct Hv as [| x v Hx Hv]; [congruence |].
  rewrite soma_cons.
  assert (0 <= soma v) by (apply soma_nonneg; eapply Forall_impl; [exact Hv |]; cbn; intros; lra).
  lra.
Qed.

Lemma produto_pos (v : vetor) : Forall (fun x => 0 < x) v -> 0 < produto v.
Proof.
  induction 1 as [| x v Hx _ IH]; [cbn; lra |].
  unfold produto in *. cbn [fold_right]. apply Qmult_lt_0_compat; assumption.
Qed.

Lemma soma_vet_pos (u w : vetor) :
  Forall (fun x => 0 < x) u -> Forall (fun x => 0 <= x) w ->
  Forall (fun x => 0 < x) (soma_vet u w).
Proof.
  intros Hu. revert w. induction Hu as [| x u Hx _ IH]; intros w Hw; [constructor |].
  destruct Hw as [| y w Hy Hw]; [constructor |].
  unfold soma_vet in *. cbn [zip_with]. constructor; [lra | apply IH, Hw].
Qed.

Lemma escala_pos (x : Q) (v : vetor) :
  0 < x -> Forall (fun y => 0 < y) v -> Forall (fun y => 0 < y) (escala x v).
Proof.
  intros Hx Hv. unfold escala. apply Forall_map.
  eapply Forall_impl; [exact Hv |]. cbn. intros y Hy. apply Qmult_lt_0_compat; assumption.
Qed.

Lemma pos_nonneg (v : vetor) : Forall (fun x => 0 < x) v -> Forall (fun x => 0 <= x) v.
Proof. intros Hv. eapply Forall_impl; [exact Hv |]. cbn. intros; lra. Qed.

Lemma vec_mat_nonneg (a : vetor) (b : matriz) (c : nat) :
  Forall (fun x => 0 < x) a -> Forall (Forall (fun x => 0 < x)) b ->
  Forall (fun x => 0 <= x) (vec_mat a b c).
Proof.
  intros Ha. revert b. induction Ha as [| x a Hx _ IH]; intros b Hb.
  - destruct b; apply Forall_forall; intros y Hy%list_elem_of_In%repeat_spec; subst y; lra.
  - destruct Hb as [| linha b Hl Hb].
    + apply Forall_forall; intros y Hy%list_elem_of_In%repeat_spec; subst y; lra.
    + cbn [vec_mat]. apply pos_nonneg, soma_vet_pos; [apply escala_pos; assumption |].
      apply IH, Hb.
Qed.

Lemma vec_mat_pos (a : vetor) (b : matriz) (c : nat) :
  a <> [] -> b <> [] ->
  Forall (fun x => 0 < x) a -> Forall (Forall (fun x => 0 < x)) b ->
  Forall (fun x => 0 < x) (vec_mat a b c).
Proof.
  intros Hna Hnb Ha Hb.
  destruct Ha as [| x a Hx Ha]; [congruence |].
  destruct Hb as [| linha b Hl Hb]; [congruence |].
  cbn [vec_mat]. apply soma_vet_pos; [apply escala_pos; assumption |].
  apply vec_mat_nonneg; assumption.
Qed.

Lemma quadrada_linha_nao_vazia (m : matriz) (linha : vetor) :
  m <> [] -> quadrada m = true -> linha ∈ m -> linha <> [].
Proof.
  intros Hne Hq Hin. apply quadrada_Forall in Hq.
  rewrite Forall_forall in Hq. specialize (Hq linha Hin).
  destruct m; [congruence |]. destruct linha; [discriminate | congruence].
Qed.

Lemma quadrada_positiva_matmul (m : matriz) :
  quadrada_positiva m -> quadrada_positiva (matmul m m).
Proof.
  intros (Hne & Hq & Hpos). split; [| split].
  - destruct m; [congruence | discriminate].
  - apply quadrada_matmul, Hq.
  - unfold matmul. apply Forall_map, Forall_forall. intros linha Hin. cbn.
    apply vec_mat_pos; try assumption.
    + eapply quadrada_linha_nao_vazia; eassumption.
    + rewrite Forall_forall in Hpos. apply Hpos, Hin.
Qed.

Lemma quadrada_positiva_quadrados (k : nat) (m : matriz) :
  quadrada_positiva m -> quadrada_positiva (quadrados k m).
Proof.
  revert m. induction k as [| k IH]; intros m Hm; [exact Hm |].
  cbn [quadrados]. apply IH, quadrada_positiva_matmul, Hm.
Qed.

Lemma length_quadrados (k : nat) (m : matriz) : length (quadrados k m) = length m.
Proof.
  revert m. induction k as [| k IH]; intros m; [reflexivity |].
  cbn [quadrados]. rewrite IH. apply length_matmul.
Qed.

Lemma soma_estimar (m : matriz) : quadrada_positiva m -> soma (estimar m) == 1.
Proof.
  intros (Hne & Hq & Hpos). unfold estimar. apply soma_normalizada.
  assert (0 < soma (sum_axis1 m)); [| lra].
  apply soma_pos.
  - destruct m; [congruence | discriminate].
  - unfold sum_axis1. apply Forall_map, Forall_forall. intros linha Hin. cbn.
    apply soma_pos.
    + eapply quadrada_linha_nao_vazia; eassumption.
    + rewrite Forall_forall in Hpos. apply Hpos, Hin.
Qed.

(** ** The normalised-column mean sums to one *)

Lemma soma_zip_div_soma_vet (a b s : vetor) :
  length a = length s -> length b = length s ->
  soma (zip_with Qdiv (soma_vet a b) s)
  == soma (zip_with Qdiv a s) + soma (zip_with Qdiv b s).
Proof.
  revert a b. induction s as [| z s IH]; intros [| x a] [| y b] Ha Hb;
    try discriminate; unfold soma_vet in *; cbn [zip_with].
  - cbn. lra.
  - rewrite !soma_cons, IH by (cbn in *; lia). unfold Qdiv. ring.
Qed.

Lemma length_sum_axis0 (m : matriz) (c : nat) :
  m <> [] -> Forall (fun linha => length linha = c) m -> length (sum_axis0 m) = c.
Proof.
  intros Hne Hm. induction Hm as [| linha m Hl Hm IH]; [congruence |].
  destruct m as [| linha' m]; [exact Hl |].
  change (sum_axis0 (linha :: linha' :: m))
    with (soma_vet linha (sum_axis0 (linha' :: m))).
  rewrite length_soma_vet; [exact Hl |]. rewrite IH by discriminate. exact Hl.
Qed.

Lemma sum_axis0_pos (m : matriz) :
  m <> [] -> Forall (Forall (fun x => 0 < x)) m -> Forall (fun x => 0 < x) (sum_axis0 m).
Proof.
  intros Hne Hm. induction Hm as [| linha m Hl Hm IH]; [congruence |].
  destruct m as [| linha' m]; [exact Hl |].
  change (sum_axis0 (linha :: linha' :: m))
    with (soma_vet linha (sum_axis0 (linha' :: m))).
  apply soma_vet_pos; [exact Hl |]. apply pos_nonneg, IH. discriminate.
Qed.

Lemma soma_linhas_divididas (m : matriz) (s : vetor) :
  m <> [] -> Forall (fun linha => length linha = length s) m ->
  soma (map (fun linha => soma (zip_with Qdiv linha s)) m)
  == soma (zip_with Qdiv (sum_axis0 m) s).
Proof.
  intros Hne Hm. induction Hm as [| linha m Hl Hm IH]; [congruence |].
  destruct m as [| linha' m].
  - cbn [map sum_axis0]. rewrite soma_cons. cbn. lra.
  - change (sum_axis0 (linha :: linha' :: m))
      with (soma_vet linha (sum_axis0 (linha' :: m))).
    rewrite soma_zip_div_soma_vet;
      [| exact Hl | apply length_sum_axis0; [discriminate | exact Hm]].
    cbn [map]. rewrite soma_cons. rewrite <- IH by discriminate. reflexivity.
Qed.

Lemma soma_zip_div_diag (s : vetor) :
  Forall (fun x => 0 < x) s -> soma (zip_with Qdiv s s) == tamanho s.
Proof.
  induction 1 as [| x s Hx _ IH].
  - reflexivity.
  - cbn [zip_with]. rewrite soma_cons, tamanho_cons, IH. field. lra.
Qed.

Lemma soma_mean_axis1 (m : matriz) (c : nat) :
  Forall (fun linha => length linha = c) m ->
  soma (mean_axis1 m) == soma (map soma m) / inject_Z (Z.of_nat c).
Proof.
  unfold mean_axis1. induction 1 as [| linha m Hl _ IH].
  - cbn. unfold Qdiv. ring.
  - cbn [map]. rewrite !soma_cons, IH, Hl. unfold Qdiv. ring.
Qed.

Lemma soma_aproximado (m : matriz) :
  quadrada_positiva m ->
  soma (mean_axis1 (divide_linhas m (sum_axis0 m))) == 1.
Proof.
  intros (Hne & Hq & Hpos).
  apply quadrada_Forall in Hq.
  assert (Hs : length (sum_axis0 m) = length m) by (apply length_sum_axis0; assumption).
  assert (Hsp : Forall (fun x => 0 < x) (sum_axis0 m)) by (apply sum_axis0_pos; assumption).
  rewrite (soma_mean_axis1 _ (length m)).
  - unfold divide_linhas. rewrite map_map.
    rewrite soma_linhas_divididas by (rewrite ?Hs; assumption).
    rewrite soma_zip_div_diag by exact Hsp. unfold tamanho. rewrite Hs.
    field. destruct m; [congruence |]. cbn [length].
    replace 0 with (inject_Z 0) by reflexivity. rewrite inject_Z_injective. lia.
  - unfold divide_linhas. apply Forall_map.
    eapply Forall_impl; [exact Hq |]. cbn. intros linha Hl.
    rewrite length_zip_with. lia.
Qed.

(** ** The three methods sum to one in exact arithmetic *)

Lemma perto_de_um (v : vetor) (p : Z) :
  soma v == 1 ->
  Qabs (soma (np_round v p) - 1) <= tamanho (np_round v p) * meio_ulp p.
Proof.
  intros Hv. destruct (soma_round_perto v p) as [Hlo Hhi].
  unfold tamanho. rewrite length_np_round. fold (tamanho v).
  apply Qabs_Qle_condition. split; lra.
Qed.

Section SomaUm.

Context `{Numpy}.

Hypothesis float_pow_pos : forall x y : Q, 0 < x -> 0 < float_pow x y.

Lemma mapM_media_geometrica_pos (m : matriz) :
  Forall (fun linha => linha <> [] /\ Forall (fun x => 0 < x) linha) m ->
  exists l : vetor,
    Py.mapM media_geometrica_linha m = inr l /\ length l = length m
    /\ Forall (fun x => 0 < x) l.
Proof.
  induction 1 as [| linha m [Hne Hpos] _ (l & Hl & Hlen & Hlpos)].
  - exists []. repeat split. constructor.
  - cbn [Py.mapM]. unfold media_geometrica_linha at 1.
    destruct (length linha) eqn:E; [destruct linha; [congruence | discriminate] |].
    cbn [Py.bind]. rewrite Hl. cbn [Py.bind]. eexists. split; [reflexivity |].
    split; [cbn [length]; congruence |].
    constructor; [| exact Hlpos]. apply float_pow_pos, produto_pos, Hpos.
Qed.

Lemma geometrico_positiva (m : matriz) (p : Z) :
  quadrada_positiva m ->
  exists l : vetor,
    geometrico m p = inr (np_round (map (fun x => x / soma l) l) p)
    /\ length l = length m /\ 0 < soma l.
Proof.
  intros (Hne & Hq & Hpos).
  destruct (mapM_media_geometrica_pos m) as (l & Hl & Hlen & Hlpos).
  { apply Forall_forall. intros linha Hin. split.
    - eapply quadrada_linha_nao_vazia; eassumption.
    - rewrite Forall_forall in Hpos. apply Hpos, Hin. }
  exists l. unfold geometrico. rewrite Hl. cbn [Py.bind].
  assert (Hln : l <> []) by (destruct l, m; cbn in Hlen; congruence).
  split; [destruct l; [congruence | reflexivity] |].
  split; [exact Hlen |]. apply soma_pos; assumption.
Qed.

Lemma autovalor_positiva (m : matriz) (p i : Z) :
  quadrada_positiva m ->
  exists v : vetor,
    autovalor m p i None = inr (np_round v p) /\ length v = length m /\ soma v == 1.
Proof.
  intros Hm. pose proof Hm as (Hne & Hq & Hpos).
  destruct (autovalor_rec_candidato (Z.to_nat i) m p i (zeros (length m)))
    as (k & Hk & _ & _ & Hres); [exact Hq | apply repeat_length | lia |].
  destruct k as [| k]; [lia |].
  exists (estimar (quadrados (S k) m)). split; [| split].
  - unfold autovalor.
    transitivity (autovalor_rec (Z.to_nat i) m p i (Some (zeros (length m))));
      [rewrite !autovalor_rec_eq; reflexivity | exact Hres].
  - rewrite length_estimar. apply length_quadrados.
  - apply soma_estimar, quadrada_positiva_quadrados, Hm.
Qed.

Lemma soma_das_prioridades_positiva (m : matriz) (p : Z) (c : calculo) :
  quadrada_positiva m ->
  exists v : vetor,
    calcula c m p = inr v /\ length v = length m
    /\ Qabs (soma v - 1) <= tamanho v * meio_ulp p.
Proof.
  intros Hm. destruct c; cbn [calcula].
  - eexists. split; [reflexivity |]. split.
    + rewrite length_np_round. unfold mean_axis1, divide_linhas.
      rewrite !length_map. reflexivity.
    + apply perto_de_um, soma_aproximado, Hm.
  - destruct (geometrico_positiva m p Hm) as (l & Hg & Hlen & Hs).
    eexists. split; [exact Hg |]. split.
    + rewrite length_np_round, length_map. exact Hlen.
    + apply perto_de_um, soma_normalizada. lra.
  - destruct (autovalor_positiva m p 100 Hm) as (v & Ha & Hlen & Hs).
    exists (np_round v p). split; [exact Ha |]. split.
    + rewrite length_np_round. exact Hlen.
    + apply perto_de_um, Hs.
Qed.

End SomaUm.

(** ** Depth and termination of the aggregation (claim C9) *)

Section Hierarquia.

Variable sub : gmap string (list string).










End Hierarquia.

Lemma global_priority_vector_S (limite : nat) (self : AHP) (prioridades : gmap string vetor)
    (pesos : vetor) (nos : list string) (globais : list vetor) :
  global_priority_vector (S limite) self prioridades pesos nos globais
  = para_cada (corpo_gpv limite self prioridades pesos nos) nos globais.
Proof. reflexivity. Qed.





Lemma para_cada_ok_elem {A : Type}
    (corpo : A -> list vetor -> (excecao + unit) * list vetor)
    (l : list A) (globais : list vetor) (x : A) :
  fst (para_cada corpo l globais) = inr tt -> x ∈ l ->
  exists g : list vetor, fst (corpo x g) = inr tt.
Proof.
  revert globais. induction l as [| y l IH]; intros g Hok Hx.
  - apply elem_of_nil in Hx. contradiction.
  - cbn [para_cada] in Hok. destruct (corpo y g) as [[e | []] g'] eqn:E; [discriminate |].
    apply elem_of_cons in Hx as [-> | Hx].
    + exists g. rewrite E. reflexivity.
    + eapply IH; eassumption.
Qed.

Section Descida.

Variables (self : AHP) (prioridades : gmap string vetor).






End Descida.

(** ** Conservation of the weights along the hierarchy (claim C8) *)





Lemma index_NoDup (l : list string) (i : nat) (c : string) :
  NoDup l -> l !! i = Some c -> index l c = inr i.
Proof.
  intros Hnd Hi. destruct (index_primeira l c i Hi) as (j & Hj & _ & Hlk & _).
  rewrite Hj. f_equal. eapply NoDup_lookup; eassumption.
Qed.

Section Conservacao.

Variables (n : nat) (p : Z).


End Conservacao.


Section Massa.

Variables (self : AHP) (prioridades : gmap string vetor) (n : nat).



End Massa.

(** ** Examples for the hierarchy *)




(** The hierarchy of two levels is walked under a limit of two calls and not
    under a limit of one; a criterion listed under itself exhausts every
    limit. *)
Example limites_de_recursao :
  global_priority_vector 2 motor_dois_niveis prioridades_dois_niveis
    [1 # 2; 1 # 2] ["c1"; "c2"] []
  = (inr tt, [[3 # 20; 1 # 10]; [3 # 40; 7 # 40]; [1 # 4; 1 # 4]])
  /\ fst (global_priority_vector 1 motor_dois_niveis prioridades_dois_niveis
            [1 # 2; 1 # 2] ["c1"; "c2"] []) = inl RecursionError
  /\ fst (global_priority_vector 1000 motor_ciclico {["a" := [1]]} [1] ["a"] [])
     = inl RecursionError.
Proof. vm_compute. repeat split. Qed.

(** ** Examples for the conservation *)




(** The same hierarchy, evaluated: three contributions, a final vector of sum
    1, and eight rounded entries along the walk. *)
Example conservacao_dois_niveis :
  soma_global [[3 # 20; 1 # 10]; [3 # 40; 7 # 40]; [1 # 4; 1 # 4]] 4
  = inr [19 # 40; 21 # 40]
  /\ soma [19 # 40; 21 # 40] == 1
  /\ arredondadas 2 (sub_criterios motor_dois_niveis) prioridades_dois_niveis
       ["c1"; "c2"] = 8%nat.
Proof. vm_compute. repeat split. Qed.

(** ** The overflow of the power iteration (claim C4) *)

(** C4.  The sum is not 1 on the power iteration of floats.  [matriz_lenta] is
    a valid comparison matrix (square, positive, reciprocal, unit diagonal);
    in exact arithmetic [autovalor] returns a vector whose sum is 1 up to half
    a unit of the twelfth decimal place per entry; on the [float64] array of
    the same matrix the ninth squaring overflows before the iteration has
    converged to twelve places, the row sums are [inf], their quotients [nan],
    and the method returns [[nan, nan, nan]]. *)
Theorem autovalor_transborda :
  valida matriz_lenta
  /\ (exists v : vetor,
        autovalor matriz_lenta 12 100 None = inr v
        /\ Qabs (soma v - 1) <= tamanho v * meio_ulp 12)
  /\ @quadravel _ _ _ F64.dtype matriz_lenta_f64
  /\ @autovalor_dtype _ _ _ F64.dtype 999 matriz_lenta_f64 12 100 None
     = inr [PrimFloat.nan; PrimFloat.nan; PrimFloat.nan].
Proof.
  assert (Hm : quadrada_positiva matriz_lenta).
  { split; [discriminate |]. split; [reflexivity |]. repeat constructor. }
  split; [| split; [| split]].
  - split; [exact Hm |]. split.
    + intros [| [| [| i]]] [| [| [| j]]] a b Ha Hb; cbn in Ha, Hb; try discriminate;
        injection Ha as <-; injection Hb as <-; reflexivity.
    + intros [| [| [| i]]] a Ha; cbn in Ha; try discriminate; injection Ha as <-;
        reflexivity.
  - destruct (autovalor_positiva matriz_lenta 12 100 Hm) as (v & Ha & _ & Hs).
    exists (np_round v 12). split; [exact Ha |]. apply perto_de_um, Hs.
  - eexists. reflexivity.
  - vm_compute. reflexivity.
Qed.

(** ** Examples for the three methods *)

(** The comparison matrix of three criteria, by the column mean and by the
    power iteration, in exact arithmetic. *)
Example prioridades_tres_criterios :
  aproximado [[1; 3; 5]; [1 # 3; 1; 3]; [1 # 5; 1 # 3; 1]] 4
  = inr [6333 # 10000; 521 # 2000; 531 # 5000]
  /\ autovalor_padrao [[1; 3; 5]; [1 # 3; 1; 3]; [1 # 5; 1 # 3; 1]] 4
     = inr [637 # 1000; 2583 # 10000; 1047 # 10000].
Proof. vm_compute. repeat split. Qed.

(** * Further properties of the engine *)

(** ** The accumulator only grows *)

Lemma para_cada_prefixo {A : Type}
    (corpo : A -> list vetor -> (excecao + unit) * list vetor)
    (l : list A) (globais : list vetor) :
  (forall x g, exists cs : list vetor, snd (corpo x g) = g ++ cs) ->
  exists cs : list vetor, snd (para_cada corpo l globais) = globais ++ cs.
Proof.
  intros Hc. revert globais. induction l as [| x l IH]; intros g.
  - exists []. cbn. rewrite app_nil_r. reflexivity.
  - cbn [para_cada]. destruct (Hc x g) as [cs1 E1].
    destruct (corpo x g) as [[e | u] g']; cbn [snd] in E1; subst g'.
    + exists cs1. reflexivity.
    + destruct (IH (g ++ cs1)) as [cs2 E2]. exists (cs1 ++ cs2).
      rewrite E2, app_assoc. reflexivity.
Qed.

Lemma global_priority_vector_prefixo (limite : nat) (self : AHP)
    (prioridades : gmap string vetor) (pesos : vetor) (nos : list string)
    (globais : list vetor) :
  exists cs : list vetor,
    snd (global_priority_vector limite self prioridades pesos nos globais)
    = globais ++ cs.
Proof.
  revert pesos nos globais. induction limite as [| limite IH]; intros pesos nos globais.
  - exists []. cbn. rewrite app_nil_r. reflexivity.
  - rewrite global_priority_vector_S. apply para_cada_prefixo.
    intros c g. unfold corpo_gpv.
    destruct (prioridade_global_de self prioridades pesos nos c) as [e | v].
    + exists []. cbn. rewrite app_nil_r. reflexivity.
    + destruct (sub_criterios self !! c) as [filhos |]; [apply IH |].
      exists [v]. reflexivity.
Qed.

(** X1.  Whatever the outcome of the walk, an exception included, the
    accumulator it leaves is the one it found followed by what it appended:
    [global_priority_vector] never removes nor reorders a contribution. *)
Theorem acumulador_cresce (limite : nat) (self : AHP) (prioridades : gmap string vetor)
    (pesos : vetor) (nos : list string) (globais : list vetor) :
  exists cs : list vetor,
    snd (global_priority_vector limite self prioridades pesos nos globais)
    = globais ++ cs.
Proof. apply global_priority_vector_prefixo. Qed.

(** ** What a completed walk has found *)

(** X2.  When the walk runs to its end, every node of every level of the
    hierarchy below the list of nodes has a local priority vector: a node
    without one makes the walk raise. *)
Theorem caminhada_completa_tem_vetores (limite : nat) (self : AHP)
    (prioridades : gmap string vetor) (pesos : vetor) (nos : list string)
    (globais : list vetor) (k : nat) (nos' : list string) (c : string) :
  fst (global_priority_vector limite self prioridades pesos nos globais) = inr tt ->
  nivel (sub_criterios self) nos k nos' -> c ∈ nos' ->
  is_Some (prioridades !! c).
Proof.
  intros Hok Hn Hc. revert limite pesos globais Hok.
  induction Hn as [nos | nos c0 filhos k nos' Hc0 Hsub _ IH]; intros limite pesos globais Hok.
  - destruct limite as [| limite]; [discriminate |].
    rewrite global_priority_vector_S in Hok.
    destruct (para_cada_ok_elem _ _ _ c Hok Hc) as [g Hg].
    unfold corpo_gpv, prioridade_global_de in Hg.
    destruct (index nos c); cbn [Py.bind] in Hg; [discriminate |].
    destruct (getitem pesos n); cbn [Py.bind] in Hg; [discriminate |].
    unfold getkey in Hg. destruct (prioridades !! c); [eauto | discriminate].
  - destruct limite as [| limite]; [discriminate |].
    rewrite global_priority_vector_S in Hok.
    destruct (para_cada_ok_elem _ _ _ c0 Hok Hc0) as [g Hg].
    unfold corpo_gpv in Hg.
    destruct (prioridade_global_de self prioridades pesos nos c0) as [e | v];
      [discriminate |].
    rewrite Hsub in Hg. eapply IH; eassumption.
Qed.

Lemma caminhada_completa_tem_vetores_witness :
  is_Some (prioridades_dois_niveis !! "s2").
Proof.
  apply (caminhada_completa_tem_vetores 2 motor_dois_niveis prioridades_dois_niveis
           [1 # 2; 1 # 2] ["c1"; "c2"] [] 2 ["s1"; "s2"] "s2").
  - vm_compute. reflexivity.
  - apply nivel_desce with (c := "c1") (filhos := ["s1"; "s2"]).
    + apply elem_of_cons. left. reflexivity.
    + reflexivity.
    + apply nivel_topo.
  - apply elem_of_cons. right. apply elem_of_cons. left. reflexivity.
Defined.

(** ** The local priorities, matrix by matrix *)

Section Locais.

Context `{Numpy}.

Lemma laco_fora (self : AHP) (matrizes : list (string * list (list Q)))
    (acc d : gmap string vetor) (k : string) :
  local_priority_vector_laco self matrizes acc = inr d ->
  k ∉ matrizes.*1 -> d !! k = acc !! k.
Proof.
  revert acc. induction matrizes as [| [k' linhas] matrizes IH]; intros acc Hd Hk.
  - cbn in Hd. congruence.
  - cbn [local_priority_vector_laco] in Hd.
    destruct (prioridades_de self linhas) as [e | v]; cbn [Py.bind] in Hd; [discriminate |].
    cbn in Hk. apply not_elem_of_cons in Hk as [Hne Hk].
    rewrite (IH _ Hd Hk). apply lookup_insert_ne. congruence.
Qed.

Lemma laco_dentro (self : AHP) (matrizes : list (string * list (list Q)))
    (acc d : gmap string vetor) (k : string) (linhas : list (list Q)) :
  NoDup matrizes.*1 ->
  local_priority_vector_laco self matrizes acc = inr d ->
  (k, linhas) ∈ matrizes ->
  exists v : vetor, prioridades_de self linhas = inr v /\ d !! k = Some v.
Proof.
  revert acc. induction matrizes as [| [k' linhas'] matrizes IH]; intros acc Hnd Hd Hin.
  - apply elem_of_nil in Hin. contradiction.
  - cbn [local_priority_vector_laco] in Hd. cbn in Hnd.
    apply NoDup_cons in Hnd as [Hk' Hnd].
    destruct (prioridades_de self linhas') as [e | v] eqn:E; cbn [Py.bind] in Hd;
      [discriminate |].
    apply elem_of_cons in Hin as [[= -> ->] | Hin].
    + exists v. split; [exact E |].
      rewrite (laco_fora _ _ _ _ k' Hd Hk'). apply lookup_insert_eq.
    + eapply IH; eassumption.
Qed.

(** X3.  When [local_priority_vector] returns, its dict has exactly the keys
    of [matrizes_preferencias] (a dict: its keys are pairwise distinct), and
    under each key the vector computed from the matrix of that key. *)
Theorem local_priority_vector_chaves (self : AHP) (d : gmap string vetor) :
  NoDup (matrizes_preferencias self).*1 ->
  local_priority_vector self = inr d ->
  forall (k : string) (v : vetor),
    d !! k = Some v
    <-> exists linhas : list (list Q),
          (k, linhas) ∈ matrizes_preferencias self
          /\ prioridades_de self linhas = inr v.
Proof.
  intros Hnd Hd k v. unfold local_priority_vector in Hd. split.
  - intros Hk.
    destruct (decide (k ∈ (matrizes_preferencias self).*1)) as [Hin | Hout].
    + apply list_elem_of_fmap in Hin as ([k' linhas] & -> & Hin). cbn in *.
      destruct (laco_dentro _ _ _ _ _ _ Hnd Hd Hin) as (v' & Hv' & Hk').
      exists linhas. split; [exact Hin | congruence].
    + rewrite (laco_fora _ _ _ _ k Hd Hout), lookup_empty in Hk. discriminate.
  - intros (linhas & Hin & Hv).
    destruct (laco_dentro _ _ _ _ _ _ Hnd Hd Hin) as (v' & Hv' & Hk'). congruence.
Qed.

Lemma laco_falha (self : AHP) (matrizes : list (string * list (list Q)))
    (acc : gmap string vetor) (e : excecao) :
  local_priority_vector_laco self matrizes acc = inl e
  <-> exists (antes : list (string * list (list Q))) (k : string)
        (linhas : list (list Q)) (depois : list (string * list (list Q))),
        matrizes = antes ++ (k, linhas) :: depois
        /\ Forall (fun '(_, l) => exists v, prioridades_de self l = inr v) antes
        /\ prioridades_de self linhas = inl e.
Proof.
  revert acc. induction matrizes as [| [k' linhas'] matrizes IH]; intros acc.
  - split; [discriminate |]. intros (antes & k & linhas & depois & E & _).
    destruct antes; discriminate.
  - cbn [local_priority_vector_laco].
    destruct (prioridades_de self linhas') as [e' | v] eqn:E; cbn [Py.bind].
    + split.
      * intros [= ->]. exists [], k', linhas', matrizes. repeat split; [constructor | exact E].
      * intros (antes & k & linhas & depois & Em & Hantes & He).
        destruct antes as [| [k0 l0] antes]; cbn in Em; injection Em as -> -> ->.
        -- congruence.
        -- apply Forall_cons in Hantes as [Hv _]. cbn in Hv.
           destruct Hv as [v Hv]. congruence.
    + rewrite IH. split.
      * intros (antes & k & linhas & depois & -> & Hantes & He).
        exists ((k', linhas') :: antes), k, linhas, depois.
        repeat split; [constructor; eauto | exact He].
      * intros (antes & k & linhas & depois & Em & Hantes & He).
        destruct antes as [| [k0 l0] antes]; cbn in Em; injection Em as -> -> ->.
        -- congruence.
        -- apply Forall_cons in Hantes as [_ Hantes].
           exists antes, k, linhas, depois. repeat split; assumption.
Qed.

(** X4.  [local_priority_vector] raises exactly when some matrix makes its turn
    of the loop raise, and the exception is that of the first such matrix in
    the order of the dict. *)
Theorem local_priority_vector_falha (self : AHP) (e : excecao) :
  local_priority_vector self = inl e
  <-> exists (antes : list (string * list (list Q))) (k : string)
        (linhas : list (list Q)) (depois : list (string * list (list Q))),
        matrizes_preferencias self = antes ++ (k, linhas) :: depois
        /\ Forall (fun '(_, l) => exists v, prioridades_de self l = inr v) antes
        /\ prioridades_de self linhas = inl e.
Proof. apply laco_falha. Qed.

End Locais.

Lemma local_priority_vector_chaves_witness :
  exists linhas : list (list Q),
    ("a", linhas) ∈ matrizes_preferencias motor_lista_vazia
    /\ @prioridades_de numpy_exemplo motor_lista_vazia linhas = inr [1 # 2; 1 # 2].
Proof.
  apply (proj1 (@local_priority_vector_chaves numpy_exemplo motor_lista_vazia
                  prioridades_lista_vazia
                  ltac:(apply NoDup_ListNoDup; repeat constructor; cbn;
                        intuition discriminate)
                  ltac:(vm_compute; reflexivity)
                  "a" [1 # 2; 1 # 2])).
  vm_compute. reflexivity.
Defined.

Lemma local_priority_vector_falha_witness :
  @local_priority_vector numpy_exemplo motor_uma_linha = inl LinAlgError.
Proof.
  apply (proj2 (@local_priority_vector_falha numpy_exemplo motor_uma_linha LinAlgError)).
  exists [], "criterios", [[1; 2]], []. repeat split. constructor.
Defined.

(** ** The facade *)

Section Fachada.

Context `{Numpy}.

(** X5.  Without a matrix under the key ['criterios'] no ranking is computed:
    [resultado] raises, [KeyError] when every matrix was accepted, and leaves
    the engine as it found it. *)
Theorem resultado_sem_criterios (limite : nat) (self : AHP) :
  "criterios" ∉ (matrizes_preferencias self).*1 ->
  exists e : excecao,
    resultado limite self = (inl e, self)
    /\ forall d : gmap string vetor, local_priority_vector self = inr d -> e = KeyError.
Proof.
  intros Hk. unfold resultado.
  destruct (local_priority_vector self) as [e | d] eqn:E.
  - exists e. split; [reflexivity | discriminate].
  - unfold local_priority_vector in E.
    unfold getkey. rewrite (laco_fora _ _ _ _ _ E Hk), lookup_empty.
    exists KeyError. split; reflexivity.
Qed.

(** X7.  In a hierarchy without sub-criteria, [resultado] appends one
    contribution per criterion, in order, to the accumulator it finds, and
    ranks the alternatives by the rounded sum of the whole accumulator, what
    earlier runs left there included. *)
Theorem resultado_um_nivel (limite : nat) (self : AHP) (d : gmap string vetor)
    (pesos : vetor) (cs : list vetor) :
  local_priority_vector self = inr d ->
  d !! "criterios" = Some pesos ->
  sub_criterios self = ∅ ->
  Py.mapM (prioridade_global_de self d pesos (criterios self)) (criterios self) = inr cs ->
  resultado (S limite) self
  = (Py.bind (soma_global (prioridades_globais self ++ cs) (precisao self))
       (fun prioridades => inr (dict_zip (alternativas self) prioridades)),
     com_globais self (prioridades_globais self ++ cs)).
Proof.
  intros Hd Hp Hsub Hcs. unfold resultado, getkey. rewrite Hd, Hp.
  rewrite (global_priority_vector_folhas limite self d pesos (criterios self) cs
             (prioridades_globais self) Hsub Hcs).
  reflexivity.
Qed.

End Fachada.

Lemma resultado_sem_criterios_witness :
  exists e : excecao,
    @resultado numpy_exemplo 1000 (novo "aproximado" 4 ["A"] ["c1"] ∅ [("c1", [[1]])] false)
    = (inl e, novo "aproximado" 4 ["A"] ["c1"] ∅ [("c1", [[1]])] false)
    /\ forall d : gmap string vetor,
         @local_priority_vector numpy_exemplo
           (novo "aproximado" 4 ["A"] ["c1"] ∅ [("c1", [[1]])] false) = inr d ->
         e = KeyError.
Proof.
  apply (@resultado_sem_criterios numpy_exemplo 1000
           (novo "aproximado" 4 ["A"] ["c1"] ∅ [("c1", [[1]])] false)).
  cbn. intros Hin. apply list_elem_of_singleton in Hin. discriminate.
Defined.

Lemma resultado_um_nivel_witness :
  @resultado numpy_exemplo 1 (com_globais motor_simples [[1 # 2; 1 # 2]])
  = (Py.bind (soma_global ([[1 # 2; 1 # 2]] ++ [[1 # 2; 1 # 2]]) 4)
       (fun prioridades => inr (dict_zip ["A"; "B"] prioridades)),
     com_globais (com_globais motor_simples [[1 # 2; 1 # 2]])
       ([[1 # 2; 1 # 2]] ++ [[1 # 2; 1 # 2]])).
Proof.
  apply (@resultado_um_nivel numpy_exemplo 0 (com_globais motor_simples [[1 # 2; 1 # 2]])
           (<["c1" := [1 # 2; 1 # 2]]> {["criterios" := [1]]}) [1] [[1 # 2; 1 # 2]]).
  - vm_compute. reflexivity.
  - vm_compute. reflexivity.
  - reflexivity.
  - vm_compute. reflexivity.
Defined.

(** ** The ranking as a dict *)

Lemma lookup_combine {A B : Type} (l : list A) (k : list B) (i : nat) (x : A) (y : B) :
  combine l k !! i = Some (x, y) <-> l !! i = Some x /\ k !! i = Some y.
Proof.
  revert k i. induction l as [| a l IH]; intros [| b k] [| i]; cbn;
    try (split; [discriminate | intros [? ?]; discriminate]).
  - split; [intros [= -> ->]; auto | intros [[= ->] [= ->]]; reflexivity].
  - apply IH.
Qed.

Lemma fold_insert_lookup (l : list (string * Q)) (acc : gmap string Q) (k : string) (v : Q) :
  fold_left (fun d '(k, v) => <[k := v]> d) l acc !! k = Some v
  <-> (exists i : nat,
         l !! i = Some (k, v)
         /\ forall (j : nat) (v' : Q), (i < j)%nat -> l !! j <> Some (k, v'))
      \/ ((forall (j : nat) (v' : Q), l !! j <> Some (k, v')) /\ acc !! k = Some v).
Proof.
  revert acc. induction l as [| [k0 v0] l IH]; intros acc.
  - cbn. split.
    + intros Hk. right. split; [intros j v'; rewrite lookup_nil; discriminate | exact Hk].
    + intros [(i & Hi & _) | [_ Hk]]; [rewrite lookup_nil in Hi; discriminate | exact Hk].
  - cbn [fold_left]. rewrite IH. split.
    + intros [(i & Hi & Hlast) | [Hnone Hk]].
      * left. exists (S i). split; [exact Hi |].
        intros [| j] v' Hj; [lia |]. cbn. apply Hlast. lia.
      * destruct (decide (k0 = k)) as [-> | Hne].
        -- rewrite lookup_insert_eq in Hk. injection Hk as ->.
           left. exists 0%nat. split; [reflexivity |].
           intros [| j] v' Hj; [lia |]. cbn. apply Hnone.
        -- rewrite lookup_insert_ne in Hk by exact Hne.
           right. split; [| exact Hk].
           intros [| j] v'; cbn; [congruence | apply Hnone].
    + intros [(i & Hi & Hlast) | [Hnone Hk]].
      * destruct i as [| i].
        -- cbn in Hi. injection Hi as -> ->. right. split.
           ++ intros j v'. apply (Hlast (S j) v'). lia.
           ++ apply lookup_insert_eq.
        -- left. exists i. split; [exact Hi |].
           intros j v' Hj. apply (Hlast (S j) v'). lia.
      * right. split; [intros j v'; apply (Hnone (S j) v') |].
        rewrite lookup_insert_ne; [exact Hk |].
        intros ->. apply (Hnone 0%nat v0). reflexivity.
Qed.

(** X9.  [dict(zip(chaves, valores))] gives the key [k] the value paired with
    the last occurrence of [k] among the pairs: a key beyond the end of the
    values, or a value beyond the end of the keys, is dropped, and a key that
    is repeated keeps its last value. *)
Theorem dict_zip_lookup (chaves : list string) (valores : vetor) (k : string) (v : Q) :
  dict_zip chaves valores !! k = Some v
  <-> exists i : nat,
        chaves !! i = Some k /\ valores !! i = Some v
        /\ forall j : nat, (i < j)%nat -> chaves !! j = Some k -> valores !! j = None.
Proof.
  unfold dict_zip. rewrite fold_insert_lookup. split.
  - intros [(i & Hi & Hlast) | [_ Hk]]; [| rewrite lookup_empty in Hk; discriminate].
    apply lookup_combine in Hi as [Hk Hv]. exists i. repeat split; try assumption.
    intros j Hj Hkj. destruct (valores !! j) as [v' |] eqn:E; [| reflexivity].
    exfalso. apply (Hlast j v' Hj). apply lookup_combine. auto.
  - intros (i & Hk & Hv & Hlast). left. exists i. split; [apply lookup_combine; auto |].
    intros j v' Hj Hc. apply lookup_combine in Hc as [Hkj Hvj].
    rewrite (Hlast j Hj Hkj) in Hvj. discriminate.
Qed.

Lemma dict_zip_lookup_witness :
  dict_zip ["A"; "B"; "A"; "C"] [1; 2; 3] !! "A" = Some 3.
Proof.
  apply (proj2 (dict_zip_lookup ["A"; "B"; "A"; "C"] [1; 2; 3] "A" 3)).
  exists 2%nat. repeat split.
  intros [| [| [| [| j]]]] Hj Hk; try lia; cbn in Hk; try discriminate; reflexivity.
Defined.

(** ** The matrices [local_priority_vector] accepts *)

Section Aceites.

Context `{Numpy}.

Lemma np_array_retangular (m : matriz) : retangular m -> np_array m = inr m.
Proof.
  intros Hr. unfold np_array.
  replace (forallb (fun linha => Nat.eqb (length linha) (shape1 m)) m) with true;
    [reflexivity |].
  symmetry. apply forallb_forall. intros linha Hin. apply Nat.eqb_eq.
  unfold retangular in Hr. rewrite Forall_forall in Hr. apply Hr, list_elem_of_In, Hin.
Qed.

Lemma geometrico_ok (m : matriz) (p : Z) :
  m <> [] -> shape1 m <> 0%nat -> retangular m -> exists v : vetor, geometrico m p = inr v.
Proof.
  intros Hne Hc Hr.
  destruct (mapM_media_geometrica_ok m) as (l & Hl & Hlen).
  { eapply Forall_impl; [exact Hr |]. cbn. intros linha E. congruence. }
  unfold geometrico. rewrite Hl. cbn [Py.bind].
  destruct l; [destruct m; [congruence | discriminate] | eauto].
Qed.

Lemma autovalor_padrao_ok (m : matriz) (p : Z) :
  quadrada m = true -> exists v : vetor, autovalor_padrao m p = inr v.
Proof.
  intros Hq.
  destruct (autovalor_rec_candidato (Z.to_nat 100) m p 100 (zeros (length m)))
    as (k & _ & _ & _ & Hres); [exact Hq | apply repeat_length | lia |].
  eexists. unfold autovalor_padrao, autovalor.
  transitivity (autovalor_rec (Z.to_nat 100) m p 100 (Some (zeros (length m))));
    [rewrite !autovalor_rec_eq; reflexivity | exact Hres].
Qed.

Lemma calcula_nao_quadrada (c : calculo) (m : matriz) (p : Z) :
  m <> [] -> shape1 m <> 0%nat -> retangular m -> quadrada m = false ->
  (exists v : vetor, calcula c m p = inr v) \/ calcula c m p = inl LinAlgError.
Proof.
  intros Hne Hc Hr Hq. destruct c; cbn [calcula].
  - left. eexists. reflexivity.
  - left. apply geometrico_ok; assumption.
  - right. unfold autovalor_padrao, autovalor. rewrite autovalor_rec_eq.
    unfold matrix_power2. rewrite Hq. reflexivity.
Qed.

Lemma calcula_quadrada (c : calculo) (m : matriz) (p : Z) :
  m <> [] -> quadrada m = true -> exists v : vetor, calcula c m p = inr v.
Proof.
  intros Hne Hq. destruct c; cbn [calcula].
  - eexists. reflexivity.
  - apply geometrico_ok; [exact Hne | |].
    + rewrite (quadrada_shape1 m Hq). destruct m; [congruence | discriminate].
    + unfold retangular. rewrite (quadrada_shape1 m Hq). apply quadrada_Forall, Hq.
  - apply autovalor_padrao_ok, Hq.
Qed.

(** X10.  Whatever the method, a matrix with more than two columns passes
    [local_priority_vector] only if it is square and of order 15 at most: the
    consistency step, which runs for every matrix, makes the turn of the loop
    raise [LinAlgError] when the matrix is not square, though [aproximado] and
    [geometrico] accept it, and [KeyError] when its order is above 15; on the
    others the turn returns what the selected method returns. *)
Theorem prioridades_de_mais_de_duas_colunas (self : AHP) (m : matriz) :
  retangular m -> m <> [] -> (2 < shape1 m)%nat ->
  (quadrada m = false -> prioridades_de self m = inl LinAlgError)
  /\ (quadrada m = true -> (15 < length m)%nat -> prioridades_de self m = inl KeyError)
  /\ (quadrada m = true -> (length m <= 15)%nat ->
      prioridades_de self m = calcula (escolha (metodo self) m) m (precisao self)).
Proof.
  intros Hr Hne Hc. unfold prioridades_de. rewrite (np_array_retangular m Hr).
  cbn [Py.bind].
  assert (Hs0 : Nat.eqb (shape0 m) 0 = false) by (destruct m; [congruence | reflexivity]).
  assert (Hm : forall A (a b : A), match m with [] => a | _ :: _ => b end = b)
    by (intros; destruct m; [congruence | reflexivity]).
  rewrite Hm.
  assert (Hs1 : Nat.ltb 2 (shape1 m) = true) by (apply Nat.ltb_lt; exact Hc).
  split; [| split].
  - intros Hq.
    assert (Hc0 : shape1 m <> 0%nat) by lia.
    destruct (calcula_nao_quadrada (escolha (metodo self) m) m (precisao self)
                Hne Hc0 Hr Hq) as [[v ->] | ->]; [| reflexivity].
    cbn [Py.bind]. unfold consistencia. rewrite Hs0, Hs1, Hq. reflexivity.
  - intros Hq Hn.
    destruct (calcula_quadrada (escolha (metodo self) m) m (precisao self) Hne Hq)
      as [v ->].
    cbn [Py.bind]. unfold consistencia. rewrite Hs0, Hs1, Hq. cbn [negb andb].
    destruct (randon_consist_index (length m)) as [ri |] eqn:Hri; [| reflexivity].
    assert (is_Some (randon_consist_index (length m))) as Hs' by eauto.
    apply randon_consist_index_dom in Hs'. lia.
  - intros Hq Hn.
    destruct (calcula_quadrada (escolha (metodo self) m) m (precisao self) Hne Hq)
      as [v Hv].
    rewrite Hv. cbn [Py.bind]. unfold consistencia. rewrite Hs0, Hs1, Hq. cbn [negb andb].
    destruct (proj1 (randon_consist_index_dom (length m))) as [ri ->];
      [pose proof (quadrada_shape1 m Hq); lia | reflexivity].
Qed.

End Aceites.

Lemma prioridades_de_mais_de_duas_colunas_witness :
  @prioridades_de numpy_exemplo motor_simples [[1; 2; 3]; [4; 5; 6]] = inl LinAlgError.
Proof.
  apply (@prioridades_de_mais_de_duas_colunas numpy_exemplo motor_simples
           [[1; 2; 3]; [4; 5; 6]]).
  - repeat constructor.
  - discriminate.
  - cbn. lia.
  - reflexivity.
Defined.

(** ** The iteration budget past convergence *)

(** X11.  Once the iteration has converged at a step, neither a larger budget
    nor a larger allowance of nested calls changes what it returns. *)
Theorem autovalor_orcamento_indiferente {M E F : Type} `{Dtype M E F}
    (limite limite' : nat) (m : M) (p interacao interacao' : Z) (k : nat) :
  dtype_regular -> quadravel m ->
  (1 <= k)%nat ->
  (forall j : nat, (1 <= j < k)%nat ->
     convergiu_de (repeat dt_zero (dt_shape0 m)) m p j = false) ->
  convergiu_de (repeat dt_zero (dt_shape0 m)) m p k = true ->
  (k <= orcamento interacao)%nat -> (k <= orcamento interacao')%nat ->
  (k <= S limite)%nat -> (k <= S limite')%nat ->
  autovalor_dtype limite m p interacao None =
  inr (map (fun x => dt_round x p) (candidato_de (repeat dt_zero (dt_shape0 m)) m k))
  /\ autovalor_dtype limite' m p interacao' None =
     autovalor_dtype limite m p interacao None.
Proof.
  intros Hreg Hq Hk Hfirst Hc Hi Hi' Hl Hl'.
  assert (Hret : forall l i, (k <= orcamento i)%nat -> (k <= S l)%nat ->
            autovalor_dtype l m p i None =
            inr (map (fun x => dt_round x p)
                   (candidato_de (repeat dt_zero (dt_shape0 m)) m k))).
  { intros l i Hb Hn.
    replace (autovalor_dtype l m p i None)
      with (autovalor_dtype l m p i (Some (repeat dt_zero (dt_shape0 m))))
      by (destruct l; reflexivity).
    apply autovalor_dtype_parada; try assumption; [apply repeat_length |].
    split; [lia |]. split; [exact Hfirst | left; exact Hc]. }
  rewrite (Hret limite interacao Hi Hl), (Hret limite' interacao' Hi' Hl').
  split; reflexivity.
Qed.

Lemma autovalor_orcamento_indiferente_witness :
  @autovalor_dtype _ _ _ I64.dtype 999 [[1; 1]; [1; 1]]%Z 4 100 None =
  inr (map (fun x => F64.round_ x 4)
         (@candidato_de _ _ _ I64.dtype (repeat PrimFloat.zero 2) [[1; 1]; [1; 1]]%Z 2))
  /\ @autovalor_dtype _ _ _ I64.dtype 50 [[1; 1]; [1; 1]]%Z 4 7 None =
     @autovalor_dtype _ _ _ I64.dtype 999 [[1; 1]; [1; 1]]%Z 4 100 None.
Proof.
  apply (@autovalor_orcamento_indiferente _ _ _ I64.dtype 999 50
           [[1; 1]; [1; 1]]%Z 4 100 7 2).
  - exact dtype_int64_regular.
  - eexists. reflexivity.
  - lia.
  - intros j Hj. assert (j = 1%nat) as -> by lia. vm_compute. reflexivity.
  - vm_compute. reflexivity.
  - vm_compute. lia.
  - vm_compute. lia.
  - lia.
  - lia.
Defined.

(** ** The exceptions of the geometric mean *)

Section Geometrico.

Context `{Numpy}.

(** X12.  [geometrico] raises two exceptions only: [TypeError], exactly on the
    array without rows (an empty list is divided by [0]), and
    [ZeroDivisionError], exactly on an array with rows and no column
    ([1 / len(linha)]). *)
Theorem geometrico_excecoes (m : matriz) (p : Z) :
  retangular m ->
  (geometrico m p = inl TypeError <-> m = [])
  /\ (geometrico m p = inl ZeroDivisionError <-> m <> [] /\ shape1 m = 0%nat)
  /\ forall e : excecao,
       geometrico m p = inl e -> e = TypeError \/ e = ZeroDivisionError.
Proof.
  intros Hr.
  destruct m as [| l0 m0].
  - change (geometrico [] p) with (@inl excecao vetor TypeError).
    split; [split; reflexivity |]. split.
    + split; [discriminate | intros [Hne _]; congruence].
    + intros e [= <-]. auto.
  - destruct (Nat.eq_dec (shape1 (l0 :: m0)) 0%nat) as [Hz | Hnz].
    + assert (E : geometrico (l0 :: m0) p = inl ZeroDivisionError).
      { unfold geometrico. cbn [Py.mapM]. unfold media_geometrica_linha at 1.
        cbn in Hz. rewrite Hz. reflexivity. }
      rewrite E. split; [split; discriminate |]. split.
      * split; [intros _; split; [discriminate | exact Hz] | reflexivity].
      * intros e [= <-]. auto.
    + destruct (geometrico_ok (l0 :: m0) p) as [v E]; [discriminate | exact Hnz | exact Hr |].
      rewrite E. split; [split; discriminate |]. split.
      * split; [discriminate | intros [_ Hz]; contradiction].
      * discriminate.
Qed.

End Geometrico.

Lemma geometrico_excecoes_witness :
  @geometrico numpy_exemplo [[]; []] 4 = inl ZeroDivisionError.
Proof.
  apply (proj2 (proj1 (proj2 (@geometrico_excecoes numpy_exemplo [[]; []] 4
                                 ltac:(repeat constructor))))).
  split; [discriminate | reflexivity].
Defined.

(** ** Equal numbers round to equal terms *)






(** ** A single item *)

Section UmItem.

Context `{Numpy}.

Hypothesis float_pow_pos : forall x y : Q, 0 < x -> 0 < float_pow x y.


End UmItem.


(** ** Weights and contributions that do not line up *)

(** X16.  With pairwise distinct nodes the walk completes only if there is a
    weight for every node of the list: when the weights are fewer than the
    nodes, some node looks its weight up past the end and the walk raises. *)
Theorem caminhada_completa_tem_pesos (limite : nat) (self : AHP)
    (prioridades : gmap string vetor) (pesos : vetor) (nos : list string)
    (globais : list vetor) :
  NoDup nos ->
  fst (global_priority_vector limite self prioridades pesos nos globais) = inr tt ->
  (length nos <= length pesos)%nat.
Proof.
  intros Hnd Hok. destruct limite as [| limite]; [discriminate |].
  rewrite global_priority_vector_S in Hok.
  destruct (decide (length nos = 0%nat)) as [-> | Hne]; [lia |].
  destruct (lookup_lt_is_Some_2 nos (length nos - 1)) as [c Hc]; [lia |].
  destruct (para_cada_ok_elem _ _ _ c Hok) as [g Hg];
    [eapply list_elem_of_lookup_2, Hc |].
  unfold corpo_gpv, prioridade_global_de in Hg.
  rewrite (index_NoDup nos _ c Hnd Hc) in Hg. cbn [Py.bind] in Hg.
  unfold getitem in Hg.
  destruct (pesos !! (length nos - 1)%nat) as [x |] eqn:E; [| discriminate].
  apply lookup_lt_Some in E. lia.
Qed.

Lemma caminhada_completa_tem_pesos_witness :
  (length ["c1"; "c2"] <= length [1 # 2; 1 # 2])%nat.
Proof.
  apply (caminhada_completa_tem_pesos 2 motor_dois_niveis prioridades_dois_niveis
           [1 # 2; 1 # 2] ["c1"; "c2"] []).
  - apply NoDup_ListNoDup. repeat constructor; cbn; intuition discriminate.
  - vm_compute. reflexivity.
Defined.

Lemma forallb_falso {A : Type} (f : A -> bool) (l : list A) :
  forallb f l = false -> exists x : A, x ∈ l /\ f x = false.
Proof.
  induction l as [| x l IH]; [discriminate |]. cbn [forallb].
  destruct (f x) eqn:E.
  - intros Hl. destruct (IH Hl) as (y & Hy & Hf). exists y. split; [| exact Hf].
    apply elem_of_cons. auto.
  - intros _. exists x. split; [apply elem_of_cons; auto | exact E].
Qed.

(** X17.  The final sum raises [TypeError] exactly on the empty accumulator
    and [ValueError] exactly when two contributions differ in length; on
    contributions of one length it returns a vector of that length. *)
Theorem soma_global_excecoes (globais : list vetor) (p : Z) :
  (soma_global globais p = inl TypeError <-> globais = [])
  /\ (soma_global globais p = inl ValueError
      <-> exists v : vetor, v ∈ globais /\ length v <> shape1 globais)
  /\ forall final : vetor,
       soma_global globais p = inr final -> length final = shape1 globais.
Proof.
  destruct globais as [| v0 g].
  - cbn. split; [split; reflexivity |]. split; [| discriminate].
    split; [discriminate |]. intros (v & Hv & _). apply elem_of_nil in Hv. contradiction.
  - unfold soma_global, np_array.
    destruct (forallb (fun linha => Nat.eqb (length linha) (shape1 (v0 :: g))) (v0 :: g))
      eqn:E; cbn [Py.bind].
    + rewrite forallb_forall in E.
      assert (Hall : Forall (fun linha => length linha = shape1 (v0 :: g)) (v0 :: g)).
      { apply Forall_forall. intros v Hv. apply Nat.eqb_eq, E, list_elem_of_In, Hv. }
      split; [split; discriminate |]. split.
      * split; [discriminate |]. intros (v & Hv & Hl).
        rewrite Forall_forall in Hall. exfalso. apply Hl, Hall, Hv.
      * intros final [= <-]. rewrite length_np_round.
        apply (length_sum_axis0 (v0 :: g)); [discriminate | exact Hall].
    + split; [split; discriminate |]. split; [| discriminate].
      split; [| reflexivity]. intros _.
      destruct (forallb_falso _ _ E) as (v & Hv & Hl). exists v. split; [exact Hv |].
      apply Nat.eqb_neq, Hl.
Qed.

Lemma soma_global_excecoes_witness :
  soma_global [[1; 2]; [3]] 4 = inl ValueError.
Proof.
  apply (proj2 (proj1 (proj2 (soma_global_excecoes [[1; 2]; [3]] 4)))).
  exists [3]. split; [| cbn; lia].
  apply elem_of_cons. right. apply elem_of_cons. left. reflexivity.
Defined.
